(** * jupyter_lsp: language server manager, listeners and sessions

    A shallow embedding of [py_src/jupyter_lsp/types.py] and
    [py_src/jupyter_lsp/manager.py], and the properties of spec resolution,
    session keying, subscription, listener dispatch and node module lookup.

    Python values are modelled as follows.
    - [dict]: an association list in insertion order with at most one entry
      per key ([d[k] = v] overwrites in place or appends).
    - exceptions: a method is a state transformer that returns [Ok v] or
      [Raise e]; state changes made before a [Raise] stay.
    - objects with identity (handlers, callbacks): records with an identifier.
    - [set] of handlers: [gset Handler.t]; iteration follows [elements]. *)

From Stdlib Require Import Ascii.
From stdpp Require Import gmap strings list sorting.

(** ** Exceptions and results *)

Inductive exn :=
| KeyError (key : string)
| TypeError (what : string)
| JSONDecodeError
| Exception (tag : string).

Inductive result (A : Type) :=
| Ok (a : A)
| Raise (e : exn).
Arguments Ok {A} a.
Arguments Raise {A} e.

Global Instance exn_eq_dec : EqDecision exn.
Proof. solve_decision. Defined.

Definition result_bind {A B} (r : result A) (k : A → result B) : result B :=
  match r with
  | Ok a => k a
  | Raise e => Raise e
  end.

(** ** Insertion-ordered dictionaries *)

Section dict.
Context {K V : Type} `{EqDecision K}.

Definition dict := list (K * V).

(** [d.get(k)] *)
Fixpoint dict_get (k : K) (d : dict) : option V :=
  match d with
  | [] => None
  | (k', v) :: d' => if decide (k = k') then Some v else dict_get k d'
  end.

(** [d[k] = v]: an existing key keeps its position. *)
Fixpoint dict_set (k : K) (v : V) (d : dict) : dict :=
  match d with
  | [] => [(k, v)]
  | (k', v') :: d' =>
      if decide (k = k') then (k', v) :: d' else (k', v') :: dict_set k v d'
  end.

(** [d.update(items)] for an iterable of pairs (or another dict). *)
Definition dict_update (d : dict) (items : list (K * V)) : dict :=
  foldl (λ acc kv, dict_set kv.1 kv.2 acc) d items.

Definition dict_keys (d : dict) : list K := d.*1.
Definition dict_values (d : dict) : list V := d.*2.
Definition dict_items (d : dict) : list (K * V) := d.

(** Change the value stored under [k], if any (mutation of the object the
    dictionary holds under that key). *)
Definition dict_alter (f : V → V) (k : K) (d : dict) : dict :=
  (λ kv : K * V, if decide (kv.1 = k) then (kv.1, f kv.2) else kv) <$> d.

(** The last pair of [items] whose key is [k]. *)
Definition assoc_last (k : K) (items : list (K * V)) : option V :=
  dict_get k (reverse items).
End dict.
Arguments dict : clear implicits.

(** [sorted(xs)] on a list of strings: the order is the lexicographic order
    of the characters' codes. *)
Definition sorted (xs : list string) : list string := merge_sort String.le xs.

(** ** Python's [re], for patterns without anchors, groups or look-around

    [re.compile] is not modelled: a compiled pattern is its syntax tree. *)

Module re.
Inductive Pattern :=
| Never
| Empty
| Char (c : ascii)
| AnyChar
| Seq (p q : Pattern)
| Alt (p q : Pattern)
| Star (p : Pattern).

(** The strings a pattern denotes. *)
Inductive matches : Pattern → string → Prop :=
| m_empty : matches Empty ""
| m_char c : matches (Char c) (String c "")
| m_any c : matches AnyChar (String c "")
| m_seq p q s1 s2 : matches p s1 → matches q s2 → matches (Seq p q) (s1 +:+ s2)
| m_alt_l p q s : matches p s → matches (Alt p q) s
| m_alt_r p q s : matches q s → matches (Alt p q) s
| m_star_nil p : matches (Star p) ""
| m_star_cons p s1 s2 :
    matches p s1 → matches (Star p) s2 → matches (Star p) (s1 +:+ s2).

Fixpoint nullable (p : Pattern) : bool :=
  match p with
  | Never | Char _ | AnyChar => false
  | Empty | Star _ => true
  | Seq p q => nullable p && nullable q
  | Alt p q => nullable p || nullable q
  end.

(** The pattern for what may follow [c]. *)
Fixpoint deriv (c : ascii) (p : Pattern) : Pattern :=
  match p with
  | Never | Empty => Never
  | Char c' => if decide (c = c') then Empty else Never
  | AnyChar => Empty
  | Seq p q =>
      if nullable p then Alt (Seq (deriv c p) q) (deriv c q)
      else Seq (deriv c p) q
  | Alt p q => Alt (deriv c p) (deriv c q)
  | Star p => Seq (deriv c p) (Star p)
  end.

(** [re.fullmatch(p, s) is not None]: the whole string. *)
Fixpoint fullmatch (p : Pattern) (s : string) : bool :=
  match s with
  | "" => nullable p
  | String c s' => fullmatch (deriv c p) s'
  end.

(** [re.match(p, s) is not None]: zero or more characters at the
    beginning of the string. *)
Fixpoint match_ (p : Pattern) (s : string) : bool :=
  nullable p ||
  match s with
  | "" => false
  | String c s' => match_ (deriv c p) s'
  end.

(** [re.search(p, s) is not None]: a match starting at any position. *)
Fixpoint search (p : Pattern) (s : string) : bool :=
  match_ p s ||
  match s with
  | "" => false
  | String _ s' => search p s'
  end.

(** The pattern compiled from a source without special characters. *)
Fixpoint literal (src : string) : Pattern :=
  match src with
  | "" => Empty
  | String c src' => Seq (Char c) (literal src')
  end.
End re.

(** ** JSON values, as [json.loads] returns them *)

#[warnings="-register-all"]
Inductive json :=
| JNull
| JBool (b : bool)
| JInt (n : Z)
| JStr (s : string)
| JList (xs : list json)
| JDict (kvs : dict string json).

(** [value[key]] for a string key. *)
Definition json_getitem (value : json) (key : string) : result json :=
  match value with
  | JDict kvs =>
      match dict_get key kvs with
      | Some v => Ok v
      | None => Raise (KeyError key)
      end
  | JList _ | JStr _ => Raise (TypeError "indices must be integers")
  | JNull | JBool _ | JInt _ => Raise (TypeError "object is not subscriptable")
  end.

(** The string argument of a [re] function. *)
Definition expect_str (value : json) : result string :=
  match value with
  | JStr s => Ok s
  | _ => Raise (TypeError "expected string or bytes-like object")
  end.

(** ** types.py *)

(** The traffic scopes of [MessageListener.SCOPES]. *)
Inductive Scope := client | server | all.

Global Instance Scope_eq_dec : EqDecision Scope.
Proof. solve_decision. Defined.

(** A client handler (a websocket handler): an object with an identity and
    the [language] it speaks. *)
Module Handler.
Record t := mk { ident : nat; language : string }.

Global Instance eq_dec : EqDecision t.
Proof. solve_decision. Defined.

Global Instance countable : Countable t.
Proof.
  refine (inj_countable' (λ h, (ident h, language h)) (λ p, mk p.1 p.2) _).
  by intros [].
Defined.
End Handler.

(** A [HandlerListenerCallback]: a coroutine function with an identity.
    [run scope message languages] is how awaiting it ends: [None] when it
    returns, [Some e] when it raises [e].  A callback is taken to run to its
    end once its task is started, and to leave the manager's tables alone. *)
Module Callback.
Record t := mk {
  ident : nat;
  run : Scope → json → list string → option exn
}.
End Callback.

Module MessageListener.
(** The fields after [__init__]: a pattern is [None] when the source given
    to [__init__] was [None] or empty. *)
Record t := mk {
  listener : Callback.t;
  language : option re.Pattern;
  method : option re.Pattern
}.

Definition wants (self : t) (message : json) (languages : list string)
    : result bool :=
  let by_language :=
    match language self with
    | None => true
    | Some p => existsb (λ lang, re.match_ p lang) languages
    end in
  match method self with
  | Some p =>
      result_bind (json_getitem message "method") (λ m,
      result_bind (expect_str m) (λ m,
      if negb (re.match_ p m) then Ok false else Ok by_language))
  | None => Ok by_language
  end.
End MessageListener.

(** [HasListeners._listeners]: one list per scope. *)
Module HasListeners.
Record table := mk {
  for_client : list MessageListener.t;
  for_server : list MessageListener.t;
  for_all : list MessageListener.t
}.

Definition empty : table := mk [] [] [].

Definition getitem (tbl : table) (scope : Scope) : list MessageListener.t :=
  match scope with
  | client => for_client tbl
  | server => for_server tbl
  | all => for_all tbl
  end.

Definition setitem (tbl : table) (scope : Scope) (ls : list MessageListener.t)
    : table :=
  match scope with
  | client => mk ls (for_server tbl) (for_all tbl)
  | server => mk (for_client tbl) ls (for_all tbl)
  | all => mk (for_client tbl) (for_server tbl) ls
  end.

Definition register_message_listener (scope : Scope)
    (language method : option re.Pattern) (listener : Callback.t)
    (tbl : table) : table :=
  setitem tbl scope
    (getitem tbl scope ++ [MessageListener.mk listener language method]).

Definition unregister_message_listener (listener : Callback.t) (tbl : table)
    : table :=
  foldl (λ acc scope,
           setitem acc scope
             (filter (λ lst, Callback.ident (MessageListener.listener lst)
                             ≠ Callback.ident listener)
                     (getitem acc scope)))
        tbl [client; server; all].
End HasListeners.

(** An argument in a call of [pathlib.Path]: a string, or a tuple of
    strings such as the one that [path_frag] is bound to. *)
Inductive path_arg :=
| StrArg (s : string)
| TupleArg (t : list string).

(** The segments of a call whose arguments are all strings. *)
Fixpoint str_args (args : list path_arg) : option (list string) :=
  match args with
  | [] => Some []
  | StrArg s :: args' => cons s <$> str_args args'
  | TupleArg _ :: _ => None
  end.

(** [LanguageServerManagerAPI.find_node_module], over a file system and
    [pathlib]: [Path] builds a path from its segments, [exists_] is
    [Path.exists] and [str] is the path as text. *)
Section find_node_module.
Context {path : Type}.
Variable Path : list string → path.
Variable exists_ : path → bool.
Variable str : path → string.

(** A call of [pathlib.Path]: the path of the segments when every argument
    is a string; an argument that is neither a string nor a path, a tuple
    for one, raises [TypeError]. *)
Definition pathlib_Path (args : list path_arg) : result path :=
  match str_args args with
  | Some segments => Ok (Path segments)
  | None => Raise (TypeError "expected str, bytes or os.PathLike object, not tuple")
  end.

(** The path under [candidate_root] that the loop looks at. *)
Definition candidate_path (path_frag : list string) (candidate_root : string)
    : path :=
  Path (candidate_root :: "node_modules" :: path_frag).

(** [pathlib.Path(candidate_root, "node_modules", *path_frag)] *)
Definition candidate (path_frag : list string) (candidate_root : string)
    : result path :=
  pathlib_Path (StrArg candidate_root :: StrArg "node_modules"
                :: (StrArg <$> path_frag)).

(** The [for] loop, with [found] the variable of that name. *)
Fixpoint find_node_module_loop (roots : list string) (path_frag : list string)
    (found : option string) : result (option string) :=
  match roots with
  | [] => Ok found
  | candidate_root :: roots' =>
      result_bind (candidate path_frag candidate_root) (λ candidate,
        if exists_ candidate
        then Ok (Some (str candidate))
        else find_node_module_loop roots' path_frag found)
  end.

(** After the loop, [if found is None:] builds the arguments of the debug
    message, [pathlib.Path(path_frag)] among them, with the tuple
    [path_frag] as the one argument; [return found] comes after that. *)
Definition find_node_module (extra_node_roots node_roots : list string)
    (path_frag : list string) : result (option string) :=
  let all_roots := extra_node_roots ++ node_roots in
  result_bind (find_node_module_loop all_roots path_frag None) (λ found,
    match found with
    | None =>
        result_bind (pathlib_Path [TupleArg path_frag]) (λ _, Ok found)
    | Some _ => Ok found
    end).
End find_node_module.

(** ** manager.py *)

(** A [LanguageServerSpec]: the two keys the manager reads.  A key that the
    dictionary lacks is [None]. *)
Module LanguageServerSpec.
Record t := mk {
  argv : option (list string);
  languages : option (list string)
}.

Global Instance eq_dec : EqDecision t.
Proof. solve_decision. Defined.

(** [spec.get(key)] in a condition: a missing key and an empty list are
    both false. *)
Definition truthy (value : option (list string)) : bool :=
  match value with
  | Some (_ :: _) => true
  | _ => false
  end.

(** [spec.get("argv") and spec.get("languages")] *)
Definition usable (spec : t) : bool :=
  truthy (argv spec) && truthy (languages spec).

(** [spec["languages"]] *)
Definition getitem_languages (spec : t) : result (list string) :=
  match languages spec with
  | Some ls => Ok ls
  | None => Raise (KeyError "languages")
  end.
End LanguageServerSpec.

(** What [session.handlers] may hold: the set it starts as, or the list
    that [unsubscribe] builds. *)
Inductive handlers_value :=
| PySet (s : gset Handler.t)
| PyList (l : list Handler.t).

(** [for h in value] *)
Definition iter_handlers (value : handlers_value) : list Handler.t :=
  match value with
  | PySet s => elements s
  | PyList l => l
  end.

(** [handler in value] *)
Definition handler_in (handler : Handler.t) (value : handlers_value) : bool :=
  bool_decide (handler ∈ iter_handlers value).

(** [s | value] for a set [s]: a set has no union with a list. *)
Definition set_or (s : gset Handler.t) (value : handlers_value)
    : result handlers_value :=
  match value with
  | PySet s' => Ok (PySet (s ∪ s'))
  | PyList _ => Raise (TypeError "unsupported operand type(s) for |: 'set' and 'list'")
  end.

Module LanguageServerSession.
Record t := mk {
  spec : LanguageServerSpec.t;
  handlers : handlers_value
}.

(** Modelled from the spec: the session class is not part of the sources;
    [LanguageServerSession(spec=spec, parent=self)] is a session that
    exposes [spec] and tracks a set of subscribed handlers, empty at first. *)
Definition new (spec : LanguageServerSpec.t) : t := mk spec (PySet ∅).

Definition with_handlers (value : handlers_value) (session : t) : t :=
  mk (spec session) value.
End LanguageServerSession.

(** Modelled from the spec: the session class is not part of the sources.
    The spec has a session expose [handlers], "the mutable subscriber set",
    and says that a session "tracks a set of subscribed handlers": the
    field holds a set, so what [session.handlers = value] keeps is the set
    of the handlers that [value] holds. *)
Definition subscriber_set (value : handlers_value) : handlers_value :=
  PySet (list_to_set (iter_handlers value)).

(** Calls the manager makes on its collaborators, in the order made.  A
    session is named by its key in [sessions]. *)
Inductive event :=
| Listened (callback : nat) (scope : Scope) (message : json) (languages : list string)
| Written (session : list string) (message : string)
| Sent (handler : Handler.t) (message : string).

Definition is_Listened (ev : event) : bool :=
  match ev with Listened _ _ _ _ => true | _ => false end.


Record LanguageServerManager := {
  language_servers : dict string LanguageServerSpec.t;
  autodetect : bool;
  sessions : dict (list string) LanguageServerSession.t;
  _listeners : HasListeners.table;
  calls : list event
}.

Definition set_language_servers (value : dict string LanguageServerSpec.t)
    (self : LanguageServerManager) : LanguageServerManager :=
  {| language_servers := value; autodetect := autodetect self;
     sessions := sessions self; _listeners := _listeners self;
     calls := calls self |}.

Definition set_sessions (value : dict (list string) LanguageServerSession.t)
    (self : LanguageServerManager) : LanguageServerManager :=
  {| language_servers := language_servers self; autodetect := autodetect self;
     sessions := value; _listeners := _listeners self; calls := calls self |}.

Definition set_calls (value : list event) (self : LanguageServerManager)
    : LanguageServerManager :=
  {| language_servers := language_servers self; autodetect := autodetect self;
     sessions := sessions self; _listeners := _listeners self;
     calls := value |}.

Definition record_call (ev : event) (self : LanguageServerManager)
    : LanguageServerManager :=
  set_calls (calls self ++ [ev]) self.

(** Methods: state transformers that return or raise. *)
Definition M (A : Type) : Type :=
  LanguageServerManager → result A * LanguageServerManager.

Definition M_ret {A} (a : A) : M A := λ self, (Ok a, self).

Definition M_bind {A B} (m : M A) (k : A → M B) : M B :=
  λ self,
    match m self with
    | (Ok a, self') => k a self'
    | (Raise e, self') => (Raise e, self')
    end.

Definition lift {A} (r : result A) : M A := λ self, (r, self).
Definition get : M LanguageServerManager := λ self, (Ok self, self).
Definition modify (f : LanguageServerManager → LanguageServerManager) : M unit :=
  λ self, (Ok tt, f self).

Global Instance M_mret : MRet M := @M_ret.
Global Instance M_mbind : MBind M := λ A B k m, M_bind m k.

(** [for x in xs: body(x)] *)
Fixpoint for_each {X} (xs : list X) (body : X → M unit) : M unit :=
  match xs with
  | [] => M_ret tt
  | x :: xs' => body x ;; for_each xs' body
  end.

(** [await asyncio.gather] on the awaitables [aws], with the default [return_exceptions=False],
    for awaitables that run to their end once started: each runs in turn,
    whether or not an earlier one raised, and the first exception raised is
    the one propagated to the caller. *)
Fixpoint gather (aws : list (M unit)) : M unit :=
  match aws with
  | [] => M_ret tt
  | aw :: aws' =>
      λ self,
        let (r, self1) := aw self in
        let (r', self2) := gather aws' self1 in
        (match r with Raise e => Raise e | Ok _ => r' end, self2)
  end.

(** [MessageListener.__call__]: await the callback. *)
Definition call_listener (lst : MessageListener.t) (scope : Scope)
    (message : json) (languages : list string) : M unit :=
  let cb := MessageListener.listener lst in
  modify (record_call (Listened (Callback.ident cb) scope message languages)) ;;
  match Callback.run cb scope message languages with
  | Some e => lift (Raise e)
  | None => M_ret tt
  end.

(** An entry point of the group [EP_SPEC_V1]: [load] gives the spec finder
    or raises, and so does the spec finder applied to the manager. *)
Module EntryPoint.
Record t := mk {
  name : string;
  load : result (LanguageServerManager →
                 result (dict string LanguageServerSpec.t))
}.
End EntryPoint.

Section manager.
(** [json.loads] (the standard library's decoder). *)
Variable json_loads : string → result json.

(** What a session keeps when [session.handlers = value] runs.  The session
    class is not part of the sources: a plain attribute keeps the value as
    it is, a set-typed trait would keep a set made from it. *)
Variable assign_handlers : handlers_value → handlers_value.

(** [pkg_resources.iter_entry_points(EP_SPEC_V1)], and whether
    [LANGUAGE_SERVER_SPEC_MAP.iter_errors(specs)] finds no error. *)
Variable iter_entry_points : result (list EntryPoint.t).
Variable schema_valid : dict string LanguageServerSpec.t → bool.

(** The pairs the generator [_autodetect_language_servers] yields; an entry
    point that fails to load, to run or to validate is skipped. *)
Definition _autodetect_language_servers (self : LanguageServerManager)
    : list (string * LanguageServerSpec.t) :=
  let entry_points :=
    match iter_entry_points with
    | Ok eps => eps
    | Raise _ => []
    end in
  flat_map
    (λ ep,
       match EntryPoint.load ep with
       | Raise _ => []
       | Ok spec_finder =>
           match spec_finder self with
           | Raise _ => []
           | Ok specs => if schema_valid specs then dict_items specs else []
           end
       end)
    entry_points.

Definition init_language_servers : M unit :=
  self ← get;
  let language_servers0 : dict string LanguageServerSpec.t := [] in
  let language_servers_from_config := language_servers self in
  let language_servers1 :=
    if autodetect self
    then dict_update language_servers0 (_autodetect_language_servers self)
    else language_servers0 in
  let language_servers2 :=
    dict_update language_servers1 (dict_items language_servers_from_config) in
  modify (set_language_servers
    (List.filter
       (λ kv : string * LanguageServerSpec.t, LanguageServerSpec.usable kv.2)
       (dict_items language_servers2))).

(** The loop of [init_sessions] over [self.language_servers.values()]. *)
Fixpoint init_sessions_loop (specs : list LanguageServerSpec.t)
    (sessions : dict (list string) LanguageServerSession.t)
    : result (dict (list string) LanguageServerSession.t) :=
  match specs with
  | [] => Ok sessions
  | spec :: specs' =>
      result_bind (LanguageServerSpec.getitem_languages spec) (λ languages,
      init_sessions_loop specs'
        (dict_set (sorted languages) (LanguageServerSession.new spec) sessions))
  end.

Definition init_sessions : M unit :=
  self ← get;
  sessions ← lift (init_sessions_loop (dict_values (language_servers self)) []);
  modify (set_sessions sessions).

Definition initialize : M unit :=
  init_language_servers ;; init_sessions.

(** The sessions the generator [sessions_for_handler] yields, each with
    its key. *)
Definition sessions_for_handler (self : LanguageServerManager)
    (handler : Handler.t) : list (list string * LanguageServerSession.t) :=
  List.filter
    (λ kv : list string * LanguageServerSession.t,
       handler_in handler (LanguageServerSession.handlers kv.2))
    (dict_items (sessions self)).

(** [session.handlers = value] for the session under [key]. *)
Definition setattr_handlers (key : list string) (value : handlers_value)
    : M unit :=
  modify (λ self,
    set_sessions
      (dict_alter (LanguageServerSession.with_handlers (assign_handlers value))
                  key (sessions self))
      self).

(** [session.handlers] for the session under [key], as it is now. *)
Definition getattr_handlers (key : list string) : M handlers_value :=
  self ← get;
  match dict_get key (sessions self) with
  | Some session => M_ret (LanguageServerSession.handlers session)
  | None => lift (Raise (KeyError "session"))
  end.

Definition subscribe (handler : Handler.t) : M unit :=
  self ← get;
  let sessions :=
    List.filter
      (λ kv : list string * LanguageServerSession.t,
         bool_decide (Handler.language handler ∈ kv.1))
      (dict_items (sessions self)) in
  match sessions with
  | [] => M_ret tt
  | _ =>
      for_each sessions (λ session,
        current ← getattr_handlers session.1;
        value ← lift (set_or {[ handler ]} current);
        setattr_handlers session.1 value)
  end.

Definition unsubscribe (handler : Handler.t) : M unit :=
  self ← get;
  for_each (sessions_for_handler self handler) (λ session,
    current ← getattr_handlers session.1;
    setattr_handlers session.1
      (PyList (List.filter (λ h, bool_decide (h ≠ handler))
                           (iter_handlers current)))).

(** The listeners the comprehension of [wait_for_listeners] keeps: those
    that want the message; [wants] may raise. *)
Fixpoint wanted_listeners (message_dict : json) (languages : list string)
    (listeners : list MessageListener.t) : result (list MessageListener.t) :=
  match listeners with
  | [] => Ok []
  | listener :: listeners' =>
      result_bind (MessageListener.wants listener message_dict languages) (λ w,
      result_bind (wanted_listeners message_dict languages listeners') (λ rest,
      Ok (if w : bool then listener :: rest else rest)))
  end.

Definition wait_for_listeners (scope : Scope) (message : string)
    (languages : list string) : M unit :=
  self ← get;
  let listeners :=
    HasListeners.getitem (_listeners self) scope
    ++ HasListeners.getitem (_listeners self) all in
  match listeners with
  | [] => M_ret tt
  | _ =>
      message_dict ← lift (json_loads message);
      wanted ← lift (wanted_listeners message_dict languages listeners);
      let futures :=
        (λ listener, call_listener listener scope message_dict languages)
          <$> wanted in
      match futures with
      | [] => M_ret tt
      | _ => gather futures
      end
  end.

Definition on_client_message (message : string) (handler : Handler.t)
    : M unit :=
  wait_for_listeners client message [Handler.language handler] ;;
  self ← get;
  for_each (sessions_for_handler self handler) (λ session,
    modify (record_call (Written session.1 message))).

Definition on_server_message (message : string)
    (session : LanguageServerSession.t) : M unit :=
  languages ← lift (LanguageServerSpec.getitem_languages
                      (LanguageServerSession.spec session));
  wait_for_listeners server message languages ;;
  for_each (iter_handlers (LanguageServerSession.handlers session)) (λ handler,
    modify (record_call (Sent handler message))).
End manager.

(** ** A decoder to run examples with

    The methods above take [json.loads] as a parameter.  [json_lite.loads]
    decodes the JSON texts made of objects, arrays, strings without escapes,
    integers, [true], [false] and [null]; what it decodes, [json.loads]
    decodes to the same value, and a text that is not JSON is refused by
    both. *)
Module json_lite.
Definition quote : ascii := ascii_of_nat 34.
Definition backslash : ascii := ascii_of_nat 92.

Definition is_ws (c : ascii) : bool :=
  bool_decide (nat_of_ascii c ∈ [32; 9; 10; 13]).

Definition digit (c : ascii) : option Z :=
  let n := nat_of_ascii c in
  if bool_decide (48 ≤ n ≤ 57) then Some (Z.of_nat (n - 48)) else None.

Fixpoint skip_ws (s : string) : string :=
  match s with
  | String c s' => if is_ws c then skip_ws s' else s
  | EmptyString => s
  end.

Fixpoint strip_prefix (p s : string) : option string :=
  match p, s with
  | EmptyString, _ => Some s
  | String a p', String b s' => if decide (a = b) then strip_prefix p' s' else None
  | String _ _, EmptyString => None
  end.

(** After the opening quote: the characters up to the closing quote. *)
Fixpoint string_body (s : string) : option (string * string) :=
  match s with
  | EmptyString => None
  | String c s' =>
      if decide (c = quote) then Some (EmptyString, s')
      else if decide (c = backslash) then None
      else if bool_decide (nat_of_ascii c < 32) then None
      else
        match string_body s' with
        | Some (body, rest) => Some (String c body, rest)
        | None => None
        end
  end.

Fixpoint more_digits (acc : Z) (s : string) : Z * string :=
  match s with
  | String c s' =>
      match digit c with
      | Some d => more_digits (10 * acc + d) s'
      | None => (acc, s)
      end
  | EmptyString => (acc, s)
  end.

(** An integer without sign; a fraction or an exponent is refused. *)
Definition natural (s : string) : option (Z * string) :=
  match s with
  | String c s' =>
      match digit c with
      | Some d =>
          let (n, rest) := if decide (d = 0%Z) then (0%Z, s') else more_digits d s' in
          match rest with
          | String c' _ =>
              if bool_decide (nat_of_ascii c' ∈ [46; 69; 101]) then None
              else if digit c' is Some _ then None
              else Some (n, rest)
          | EmptyString => Some (n, rest)
          end
      | None => None
      end
  | EmptyString => None
  end.

Definition starts_with (c : nat) (s : string) : option string :=
  match s with
  | String c' s' => if decide (nat_of_ascii c' = c) then Some s' else None
  | EmptyString => None
  end.

(** [value] reads one value; [members] and [elements] read what follows
    the opening brace or bracket, [first] telling whether the closing one
    may come at once. *)
Fixpoint value (fuel : nat) (s : string) : option (json * string) :=
  match fuel with
  | 0 => None
  | S fuel' =>
      if starts_with 123 s is Some s1 then members fuel' true [] (skip_ws s1)
      else if starts_with 91 s is Some s1 then elements fuel' true [] (skip_ws s1)
      else if starts_with 34 s is Some s1 then
        match string_body s1 with
        | Some (body, rest) => Some (JStr body, rest)
        | None => None
        end
      else if strip_prefix "true" s is Some rest then Some (JBool true, rest)
      else if strip_prefix "false" s is Some rest then Some (JBool false, rest)
      else if strip_prefix "null" s is Some rest then Some (JNull, rest)
      else if starts_with 45 s is Some s1 then
        match natural s1 with
        | Some (n, rest) => Some (JInt (- n), rest)
        | None => None
        end
      else
        match natural s with
        | Some (n, rest) => Some (JInt n, rest)
        | None => None
        end
  end
with members (fuel : nat) (first : bool) (acc : dict string json) (s : string)
    : option (json * string) :=
  match fuel with
  | 0 => None
  | S fuel' =>
      if (if first then starts_with 125 s else None) is Some rest
      then Some (JDict acc, rest)
      else
        match starts_with 34 s with
        | Some s1 =>
            match string_body s1 with
            | Some (key, s2) =>
                match starts_with 58 (skip_ws s2) with
                | Some s3 =>
                    match value fuel' (skip_ws s3) with
                    | Some (v, s4) =>
                        let acc' := dict_set key v acc in
                        let s5 := skip_ws s4 in
                        if starts_with 125 s5 is Some rest
                        then Some (JDict acc', rest)
                        else if starts_with 44 s5 is Some s6
                        then members fuel' false acc' (skip_ws s6)
                        else None
                    | None => None
                    end
                | None => None
                end
            | None => None
            end
        | None => None
        end
  end
with elements (fuel : nat) (first : bool) (acc : list json) (s : string)
    : option (json * string) :=
  match fuel with
  | 0 => None
  | S fuel' =>
      if (if first then starts_with 93 s else None) is Some rest
      then Some (JList acc, rest)
      else
        match value fuel' s with
        | Some (v, s1) =>
            let acc' := acc ++ [v] in
            let s2 := skip_ws s1 in
            if starts_with 93 s2 is Some rest
            then Some (JList acc', rest)
            else if starts_with 44 s2 is Some s3
            then elements fuel' false acc' (skip_ws s3)
            else None
        | None => None
        end
  end.

Definition loads (s : string) : result json :=
  match value (S (String.length s)) (skip_ws s) with
  | Some (v, rest) =>
      if decide (skip_ws rest = EmptyString) then Ok v else Raise JSONDecodeError
  | None => Raise JSONDecodeError
  end.

(** The text of a JSON string. *)
Definition quoted (s : string) : string :=
  String quote s +:+ String quote EmptyString.
End json_lite.


(** ** Session keys in the words of the specification

    The sorted tuple of the distinct language identifiers of a spec. *)
Definition SessionKey (languages : list string) : list string :=
  sorted (remove_dups languages).

(** ** Values for the examples *)

Definition quiet_callback : Callback.t :=
  Callback.mk 1 (λ _ _ _, None).

Definition failing_callback : Callback.t :=
  Callback.mk 2 (λ _ _ _, Some (Exception "boom")).

Definition python_spec : LanguageServerSpec.t :=
  LanguageServerSpec.mk (Some ["pyls"]) (Some ["python"]).

Definition python_handler : Handler.t := Handler.mk 7 "python".

Definition plain_attribute (value : handlers_value) : handlers_value := value.

(** A manager with one session, for python, that [python_handler] is
    subscribed to, and the given listeners. *)
Definition python_manager (listeners : HasListeners.table) : LanguageServerManager :=
  {| language_servers := [("pyls", python_spec)];
     autodetect := false;
     sessions :=
       [(["python"],
         LanguageServerSession.mk python_spec (PySet {[ python_handler ]}))];
     _listeners := listeners;
     calls := [] |}.

(** A spec finder that finds a python server under the key py, and a
    manager configured with an empty spec under that key. *)
Definition py_entry_point : EntryPoint.t :=
  EntryPoint.mk "py" (Ok (λ _, Ok [("py", python_spec)])).

Definition empty_spec : LanguageServerSpec.t :=
  LanguageServerSpec.mk (Some []) (Some []).

Definition opted_out_manager : LanguageServerManager :=
  {| language_servers := [("py", empty_spec)];
     autodetect := true;
     sessions := [];
     _listeners := HasListeners.empty;
     calls := [] |}.

(** Two specs for python, the second naming the language twice. *)
Definition repeated_spec : LanguageServerSpec.t :=
  LanguageServerSpec.mk (Some ["other-pyls"]) (Some ["python"; "python"]).

Definition repeated_manager : LanguageServerManager :=
  {| language_servers := [("a", python_spec); ("b", repeated_spec)];
     autodetect := false;
     sessions := [];
     _listeners := HasListeners.empty;
     calls := [] |}.

(** Two specs for the same languages, listed in different orders. *)
Definition web_spec : LanguageServerSpec.t :=
  LanguageServerSpec.mk (Some ["web-ls"]) (Some ["json"; "css"]).

Definition other_web_spec : LanguageServerSpec.t :=
  LanguageServerSpec.mk (Some ["other-web-ls"]) (Some ["css"; "json"]).

Definition web_manager : LanguageServerManager :=
  {| language_servers := [("a", web_spec); ("b", other_web_spec)];
     autodetect := false;
     sessions := [];
     _listeners := HasListeners.empty;
     calls := [] |}.

(** A session for json and yaml without subscribers, and a handler that
    speaks json. *)
Definition json_spec : LanguageServerSpec.t :=
  LanguageServerSpec.mk (Some ["yaml-ls"]) (Some ["json"; "yaml"]).

Definition json_handler : Handler.t := Handler.mk 3 "json".

Definition json_manager : LanguageServerManager :=
  {| language_servers := [("yaml-ls", json_spec)];
     autodetect := false;
     sessions := [(["json"; "yaml"], LanguageServerSession.new json_spec)];
     _listeners := HasListeners.empty;
     calls := [] |}.

(** ** What a dispatch shows

    The [Listened] calls for the listeners that are awaited, the exception
    [gather] propagates (the first one raised, if any), and the deliveries
    to sessions and to handlers. *)
Definition listened (scope : Scope) (message_dict : json)
    (languages : list string) (wanted : list MessageListener.t) : list event :=
  (λ lst, Listened (Callback.ident (MessageListener.listener lst))
            scope message_dict languages) <$> wanted.

Definition first_raised (scope : Scope) (message_dict : json)
    (languages : list string) (wanted : list MessageListener.t) : option exn :=
  head (omap (λ lst, Callback.run (MessageListener.listener lst)
                       scope message_dict languages) wanted).

Definition gathered (raised : option exn) : result unit :=
  match raised with
  | Some e => Raise e
  | None => Ok tt
  end.

Definition written (message : string)
    (targets : list (list string * LanguageServerSession.t)) : list event :=
  (λ session, Written session.1 message) <$> targets.

Definition sent (message : string) (targets : list Handler.t) : list event :=
  (λ handler, Sent handler message) <$> targets.

(** Listeners for client messages: one whose callback raises, then one
    whose callback returns. *)
Definition two_listeners : HasListeners.table :=
  HasListeners.mk
    [MessageListener.mk failing_callback None None;
     MessageListener.mk quiet_callback None None]
    [] [].

(** One listener for every scope. *)
Definition one_listener : HasListeners.table :=
  HasListeners.mk [] [] [MessageListener.mk quiet_callback None None].

(** One listener for server messages. *)
Definition server_listener : HasListeners.table :=
  HasListeners.mk [] [MessageListener.mk quiet_callback None None] [].

(** ** More of types.py and manager.py *)

(** [MessageListener.__init__]: a pattern source that is [None] or empty
    gives no pattern, any other source is compiled by [re.compile]. *)
Section listener_init.
Variable re_compile : string → re.Pattern.

(** [re.compile(source) if source else None] *)
Definition compile_if_given (source : option string) : option re.Pattern :=
  match source with
  | Some (String c s) => Some (re_compile (String c s))
  | Some EmptyString | None => None
  end.

Definition MessageListener_init (listener : Callback.t)
    (language method : option string) : MessageListener.t :=
  MessageListener.mk listener (compile_if_given language) (compile_if_given method).
End listener_init.

(** The class attribute [_listeners], as the manager sees it after the
    table has changed. *)
Definition set_listeners (value : HasListeners.table)
    (self : LanguageServerManager) : LanguageServerManager :=
  {| language_servers := language_servers self; autodetect := autodetect self;
     sessions := sessions self; _listeners := value; calls := calls self |}.

(** Entry points that fail: one whose [load] raises and one whose spec
    finder raises. *)
Definition broken_entry_point : EntryPoint.t :=
  EntryPoint.mk "broken" (Raise (Exception "ImportError")).

Definition failing_entry_point : EntryPoint.t :=
  EntryPoint.mk "failing" (Ok (λ _, Raise (Exception "boom"))).

(** A manager with two configured specs, one of them empty, and detection
    off. *)
Definition configured_manager : LanguageServerManager :=
  {| language_servers := [("off", empty_spec); ("web", web_spec)];
     autodetect := false;
     sessions := [];
     _listeners := HasListeners.empty;
     calls := [] |}.

(** A spec without [languages]. *)
Definition headless_spec : LanguageServerSpec.t :=
  LanguageServerSpec.mk (Some ["ls"]) None.

Definition headless_manager : LanguageServerManager :=
  {| language_servers := [("web", web_spec); ("bad", headless_spec)];
     autodetect := false;
     sessions := [(["python"], LanguageServerSession.new python_spec)];
     _listeners := HasListeners.empty;
     calls := [] |}.
(** * Properties *)

(** ** The decoder on examples *)

Example loads_empty_object : json_lite.loads "{}" = Ok (JDict []).
Proof. reflexivity. Qed.

Example loads_request :
  json_lite.loads
    ("{" +:+ json_lite.quoted "method" +:+ ": "
         +:+ json_lite.quoted "textDocument/didOpen" +:+ ", "
         +:+ json_lite.quoted "id" +:+ ": 1}")
  = Ok (JDict [("method", JStr "textDocument/didOpen"); ("id", JInt 1)]).
Proof. vm_compute. reflexivity. Qed.

Example loads_not_json : json_lite.loads "Content-Length" = Raise JSONDecodeError.
Proof. vm_compute. reflexivity. Qed.

(** ** Node module lookup *)

Section find_node_module_facts.
Context {path : Type}.
Variable Path : list string → path.
Variable exists_ : path → bool.
Variable str : path → string.

Lemma str_args_strings segments : str_args (StrArg <$> segments) = Some segments.
Proof.
  induction segments as [|segment segments IH]; [done|].
  rewrite fmap_cons. cbn [str_args]. by rewrite IH.
Qed.

(** The call that builds a candidate has strings only: it returns. *)
Lemma candidate_returns path_frag candidate_root :
  candidate Path path_frag candidate_root
  = Ok (candidate_path Path path_frag candidate_root).
Proof.
  unfold candidate, pathlib_Path. cbn [str_args].
  by rewrite str_args_strings.
Qed.

(** The call on the tuple [path_frag] raises, whatever the tuple holds. *)
Lemma pathlib_Path_tuple path_frag :
  pathlib_Path Path [TupleArg path_frag]
  = Raise (TypeError "expected str, bytes or os.PathLike object, not tuple").
Proof. reflexivity. Qed.

Lemma find_node_module_loop_cons candidate_root roots path_frag found :
  find_node_module_loop Path exists_ str (candidate_root :: roots) path_frag found
  = if exists_ (candidate_path Path path_frag candidate_root)
    then Ok (Some (str (candidate_path Path path_frag candidate_root)))
    else find_node_module_loop Path exists_ str roots path_frag found.
Proof. cbn [find_node_module_loop]. by rewrite candidate_returns. Qed.

(** The loop itself never raises. *)
Lemma find_node_module_loop_returns roots path_frag found :
  ∃ found', find_node_module_loop Path exists_ str roots path_frag found = Ok found'.
Proof.
  induction roots as [|r roots IH]; [by eexists|].
  rewrite find_node_module_loop_cons.
  destruct (exists_ (candidate_path Path path_frag r)); [by eexists|exact IH].
Qed.

Lemma find_node_module_loop_found roots path_frag found :
  find_node_module_loop Path exists_ str roots path_frag None = Ok (Some found) →
  ∃ before root after,
    roots = before ++ root :: after
    ∧ Forall (λ r, exists_ (candidate_path Path path_frag r) = false) before
    ∧ exists_ (candidate_path Path path_frag root) = true
    ∧ found = str (candidate_path Path path_frag root).
Proof.
  induction roots as [|r roots IH]; [done|].
  rewrite find_node_module_loop_cons.
  destruct (exists_ (candidate_path Path path_frag r)) eqn:Hr.
  - intros [= <-]. by exists [], r, roots.
  - intros Hfind.
    destruct (IH Hfind) as (before & root & after & -> & Hb & Hroot & ->).
    exists (r :: before), root, after. by repeat split; [constructor|..].
Qed.

Lemma find_node_module_loop_none roots path_frag :
  find_node_module_loop Path exists_ str roots path_frag None = Ok None ↔
  Forall (λ r, exists_ (candidate_path Path path_frag r) = false) roots.
Proof.
  induction roots as [|r roots IH]; [done|].
  rewrite find_node_module_loop_cons.
  destruct (exists_ (candidate_path Path path_frag r)) eqn:Hr.
  - split; [done|]. intros [? _]%Forall_cons. congruence.
  - rewrite IH, Forall_cons. split; [by intros ?; split | by intros [_ ?]].
Qed.

Lemma find_node_module_loop_app roots1 roots2 path_frag :
  find_node_module_loop Path exists_ str (roots1 ++ roots2) path_frag None =
  match find_node_module_loop Path exists_ str roots1 path_frag None with
  | Ok None => find_node_module_loop Path exists_ str roots2 path_frag None
  | outcome => outcome
  end.
Proof.
  induction roots1 as [|r roots1 IH]; [done|].
  rewrite <-app_comm_cons, !find_node_module_loop_cons.
  by destruct (exists_ (candidate_path Path path_frag r)).
Qed.

(** What [find_node_module] does, by what the loop leaves in [found]. *)
Lemma find_node_module_run extra_node_roots node_roots path_frag :
  find_node_module Path exists_ str extra_node_roots node_roots path_frag =
  match find_node_module_loop Path exists_ str (extra_node_roots ++ node_roots)
          path_frag None with
  | Ok (Some found) => Ok (Some found)
  | Ok None =>
      Raise (TypeError "expected str, bytes or os.PathLike object, not tuple")
  | Raise e => Raise e
  end.
Proof.
  unfold find_node_module.
  by destruct (find_node_module_loop _ _ _ _ _ _) as [[found|]|e].
Qed.

(** C9. [find_node_module] looks under the extra roots first and then under
    the default roots, and returns the text of the first candidate path
    that exists, every candidate before it being absent; a module found
    under the extra roots is returned whatever the default roots hold.
    When no candidate exists it does not return [None]: the call of
    [pathlib.Path] on the tuple [path_frag], made for the debug message,
    raises [TypeError], whatever the roots and the segments are. *)
Theorem find_node_module_not_found_raises extra_node_roots node_roots path_frag :
  match find_node_module Path exists_ str extra_node_roots node_roots path_frag with
  | Ok (Some found) =>
      ∃ before root after,
        extra_node_roots ++ node_roots = before ++ root :: after
        ∧ Forall (λ r, exists_ (candidate_path Path path_frag r) = false) before
        ∧ exists_ (candidate_path Path path_frag root) = true
        ∧ found = str (candidate_path Path path_frag root)
  | Ok None => False
  | Raise e =>
      e = TypeError "expected str, bytes or os.PathLike object, not tuple"
      ∧ Forall (λ r, exists_ (candidate_path Path path_frag r) = false)
               (extra_node_roots ++ node_roots)
  end
  ∧ (Forall (λ r, exists_ (candidate_path Path path_frag r) = false)
            (extra_node_roots ++ node_roots) →
     find_node_module Path exists_ str extra_node_roots node_roots path_frag
     = Raise (TypeError "expected str, bytes or os.PathLike object, not tuple"))
  ∧ (∀ found,
       find_node_module Path exists_ str extra_node_roots [] path_frag
       = Ok (Some found) →
       find_node_module Path exists_ str extra_node_roots node_roots path_frag
       = Ok (Some found)).
Proof.
  rewrite !find_node_module_run. split; [|split].
  - destruct (find_node_module_loop_returns (extra_node_roots ++ node_roots)
                path_frag None) as [[found|] Hfind]; rewrite Hfind.
    + by apply find_node_module_loop_found.
    + split; [done|]. by apply find_node_module_loop_none.
  - intros Habsent. by rewrite (proj2 (find_node_module_loop_none _ _) Habsent).
  - intros found. rewrite app_nil_r, find_node_module_loop_app.
    by destruct (find_node_module_loop _ _ _ extra_node_roots _ _) as [[found'|]|e].
Qed.
End find_node_module_facts.

(** A module that is installed nowhere: looking for it raises. *)
Lemma find_node_module_not_found_raises_witness :
  find_node_module (λ segments, segments) (λ _, false)
    (λ p, String.concat "/" p)
    ["/extra"] ["/home"; "/usr/lib"] ["pyright"]
  = Raise (TypeError "expected str, bytes or os.PathLike object, not tuple").
Proof.
  apply (proj1 (proj2 (find_node_module_not_found_raises (λ segments, segments)
    (λ _, false) (λ p, String.concat "/" p)
    ["/extra"] ["/home"; "/usr/lib"] ["pyright"]))).
  by repeat constructor.
Defined.

(** A file system with one module, under the second extra root: the default
    roots are not consulted for it. *)
Example find_node_module_under_extra_root :
  find_node_module (λ segments, segments)
    (λ p, bool_decide (p = ["/extra"; "node_modules"; "pyright"]))
    (λ p, String.concat "/" p)
    ["/nothing"; "/extra"] ["/home"; "/usr/lib"] ["pyright"]
  = Ok (Some "/extra/node_modules/pyright").
Proof. reflexivity. Qed.

(** ** Listener predicates *)

(** C3. For a listener with a method pattern and a message object without a
    [method] key, [wants] does not return: the lookup [message["method"]]
    raises [KeyError]. *)
Theorem wants_missing_method_raises self p kvs languages :
  MessageListener.method self = Some p →
  dict_get "method" kvs = None →
  MessageListener.wants self (JDict kvs) languages = Raise (KeyError "method").
Proof.
  intros Hm Hget. unfold MessageListener.wants. rewrite Hm. simpl.
  by rewrite Hget.
Qed.

(** A response message, decoded, offered to a listener for [initialize]. *)
Lemma wants_missing_method_raises_witness :
  MessageListener.wants
    (MessageListener.mk quiet_callback None (Some (re.literal "initialize")))
    (JDict [("id", JInt 1); ("result", JNull)]) ["python"]
  = Raise (KeyError "method").
Proof.
  apply (wants_missing_method_raises
           (MessageListener.mk quiet_callback None (Some (re.literal "initialize")))
           (re.literal "initialize")); reflexivity.
Defined.

(** ** Patterns: the matcher against the strings a pattern denotes *)

Lemma append_cons c s1 s2 : String c s1 +:+ s2 = String c (s1 +:+ s2).
Proof. reflexivity. Qed.

Lemma append_nil_l s : "" +:+ s = s.
Proof. reflexivity. Qed.

Lemma append_nil_r s : s +:+ "" = s.
Proof. induction s as [|c s IH]; [done|]. by rewrite append_cons, IH. Qed.

Lemma append_eq_nil s1 s2 : s1 +:+ s2 = "" → s1 = "" ∧ s2 = "".
Proof. by destruct s1. Qed.

Lemma append_assoc s1 s2 s3 : (s1 +:+ s2) +:+ s3 = s1 +:+ s2 +:+ s3.
Proof. induction s1 as [|c s1 IH]; [done|]. by rewrite !append_cons, IH. Qed.

Lemma re_matches_nil_nullable p s :
  re.matches p s → s = "" → re.nullable p = true.
Proof.
  induction 1 as [| | |p q s1 s2 _ IH1 _ IH2|p q s _ IH|p q s _ IH| |];
    intros Hs; simpl; try done.
  - apply append_eq_nil in Hs as [-> ->]. by rewrite IH1, IH2.
  - by rewrite IH.
  - rewrite IH by done. by destruct (re.nullable p).
Qed.

Lemma re_nullable_spec p : re.nullable p = true ↔ re.matches p "".
Proof.
  split; [|intros; by eapply re_matches_nil_nullable].
  induction p as [| | | |p IHp q IHq|p IHp q IHq|p IHp]; simpl; try done.
  - intros _. constructor.
  - intros [Hp Hq]%andb_true_iff.
    apply (re.m_seq p q "" ""); auto.
  - intros [Hp|Hq]%orb_true_iff; [apply re.m_alt_l|apply re.m_alt_r]; auto.
  - intros _. constructor.
Qed.

Lemma re_matches_deriv_1 c p s :
  re.matches (re.deriv c p) s → re.matches p (String c s).
Proof.
  revert s. induction p as [| | c'| |p IHp q IHq|p IHp q IHq|p IHp];
    simpl; intros s Hm.
  - inversion Hm.
  - inversion Hm.
  - destruct (decide (c = c')) as [->|]; inversion Hm; subst. constructor.
  - inversion Hm; subst. constructor.
  - destruct (re.nullable p) eqn:Hnull.
    + inversion Hm as [| | | |? ? ? Hl|? ? ? Hr| |]; subst.
      * inversion Hl as [| | |? ? s1 s2 H1 H2| | | |]; subst.
        apply (re.m_seq p q (String c s1) s2); auto.
      * apply (re.m_seq p q "" (String c s)); [by apply re_nullable_spec|auto].
    + inversion Hm as [| | |? ? s1 s2 H1 H2| | | |]; subst.
      apply (re.m_seq p q (String c s1) s2); auto.
  - inversion Hm; subst; [apply re.m_alt_l|apply re.m_alt_r]; auto.
  - inversion Hm as [| | |? ? s1 s2 H1 H2| | | |]; subst.
    apply (re.m_star_cons p (String c s1) s2); auto.
Qed.

Lemma re_matches_deriv_2 p s' :
  re.matches p s' → ∀ c s, s' = String c s → re.matches (re.deriv c p) s.
Proof.
  induction 1 as [|c0|c0|p q s1 s2 H1 IH1 H2 IH2|p q s0 _ IH|p q s0 _ IH
                  |p|p s1 s2 H1 IH1 H2 IH2];
    intros c s Hs; simpl; try done.
  - injection Hs as -> <-. rewrite decide_True by done. constructor.
  - injection Hs as -> <-. constructor.
  - destruct s1 as [|c1 s1].
    + rewrite append_nil_l in Hs. subst s2.
      rewrite (re_matches_nil_nullable p "" H1 eq_refl).
      apply re.m_alt_r. by apply IH2.
    + rewrite append_cons in Hs. injection Hs as -> <-.
      assert (re.matches (re.Seq (re.deriv c p) q) (s1 +:+ s2)) as Hseq.
      { constructor; [by apply IH1|done]. }
      destruct (re.nullable p); [by apply re.m_alt_l|done].
  - apply re.m_alt_l. by apply IH.
  - apply re.m_alt_r. by apply IH.
  - destruct s1 as [|c1 s1].
    + rewrite append_nil_l in Hs. by apply IH2.
    + rewrite append_cons in Hs. injection Hs as -> <-.
      constructor; [by apply IH1|done].
Qed.

Lemma re_deriv_spec c p s :
  re.matches (re.deriv c p) s ↔ re.matches p (String c s).
Proof.
  split; [apply re_matches_deriv_1|].
  intros Hm. by eapply re_matches_deriv_2.
Qed.

Lemma re_fullmatch_spec p s : re.fullmatch p s = true ↔ re.matches p s.
Proof.
  revert p. induction s as [|c s IH]; intros p; simpl.
  - apply re_nullable_spec.
  - by rewrite IH, re_deriv_spec.
Qed.

(** [re.match] succeeds exactly when the pattern denotes a prefix of the
    string. *)
Lemma re_match_spec p s :
  re.match_ p s = true ↔ ∃ s1 s2, s = s1 +:+ s2 ∧ re.matches p s1.
Proof.
  revert p. induction s as [|c s IH]; intros p; simpl.
  - rewrite orb_false_r, re_nullable_spec. split.
    + intros Hm. by exists "", "".
    + intros (s1 & s2 & Hs & Hm). symmetry in Hs.
      by apply append_eq_nil in Hs as [-> _].
  - rewrite orb_true_iff, IH, re_nullable_spec. split.
    + intros [Hm|(s1 & s2 & -> & Hm)].
      * by exists "", (String c s).
      * exists (String c s1), s2. split; [done|]. by apply re_deriv_spec.
    + intros (s1 & s2 & Hs & Hm). destruct s1 as [|c1 s1]; [by left|].
      rewrite append_cons in Hs. injection Hs as <- ->. right.
      exists s1, s2. split; [done|]. by apply re_deriv_spec.
Qed.

(** [re.search] succeeds exactly when the pattern denotes a part of the
    string, wherever it starts. *)
Lemma re_search_spec p s :
  re.search p s = true ↔ ∃ s0 s1 s2, s = s0 +:+ s1 +:+ s2 ∧ re.matches p s1.
Proof.
  induction s as [|c s IH]; cbn [re.search].
  - rewrite orb_false_r, re_match_spec. split.
    + intros (s1 & s2 & Hs & Hm). by exists "", s1, s2.
    + intros (s0 & s1 & s2 & Hs & Hm). symmetry in Hs.
      apply append_eq_nil in Hs as [-> Hs]. by exists s1, s2.
  - rewrite orb_true_iff, IH, re_match_spec. split.
    + intros [(s1 & s2 & Hs & Hm)|(s0 & s1 & s2 & -> & Hm)].
      * by exists "", s1, s2.
      * by exists (String c s0), s1, s2.
    + intros (s0 & s1 & s2 & Hs & Hm). destruct s0 as [|c0 s0].
      * left. by exists s1, s2.
      * rewrite append_cons in Hs. injection Hs as <- ->. right. by exists s0, s1, s2.
Qed.

Lemma re_match_search p s : re.match_ p s = true → re.search p s = true.
Proof. destruct s; simpl; by intros ->. Qed.

Lemma existsb_match_spec p languages :
  existsb (λ lang, re.match_ p lang) languages = true ↔
  ∃ lang head tail, lang ∈ languages ∧ lang = head +:+ tail ∧ re.matches p head.
Proof.
  rewrite existsb_exists. split.
  - intros (lang & Hin%list_elem_of_In & (head & tail & ? & ?)%re_match_spec).
    by exists lang, head, tail.
  - intros (lang & head & tail & Hin%list_elem_of_In & Hlang & Hm).
    exists lang. split; [done|]. apply re_match_spec. by exists head, tail.
Qed.

(** C2, as the code has it. [wants] tests each pattern with [re.match]: a
    language is accepted when the language pattern denotes a prefix of it (a
    match at the start of the string, which need not reach its end), so the
    pattern python accepts python3 without matching it in full; the method
    pattern is tested against the message's method in the same way. *)
Theorem wants_matches_at_start :
  (∀ self p message languages,
     MessageListener.language self = Some p →
     MessageListener.method self = None →
     (∃ b, MessageListener.wants self message languages = Ok b)
     ∧ (MessageListener.wants self message languages = Ok true ↔
        ∃ lang head tail,
          lang ∈ languages ∧ lang = head +:+ tail ∧ re.matches p head))
  ∧ (re.match_ (re.literal "python") "python3" = true
     ∧ re.fullmatch (re.literal "python") "python3" = false)
  ∧ (∀ callback language q kvs m languages,
       dict_get "method" kvs = Some (JStr m) →
       MessageListener.wants (MessageListener.mk callback language (Some q))
         (JDict kvs) languages
       = if re.match_ q m
         then MessageListener.wants (MessageListener.mk callback language None)
                (JDict kvs) languages
         else Ok false)
  ∧ (∀ q m, re.match_ q m = true ↔ ∃ head tail, m = head +:+ tail ∧ re.matches q head).
Proof.
  split; [|split; [|split]].
  - intros self p message languages Hlang Hmeth.
    unfold MessageListener.wants. rewrite Hlang, Hmeth. split; [by eexists|].
    rewrite <-existsb_match_spec. split; [by intros [= ->]|by intros ->].
  - split; reflexivity.
  - intros callback language q kvs m languages Hget.
    unfold MessageListener.wants; simpl. rewrite Hget; simpl.
    by destruct (re.match_ q m).
  - apply re_match_spec.
Qed.

(** The pattern python, a listener without method pattern, and a handler
    that speaks python3. *)
Lemma wants_matches_at_start_witness :
  MessageListener.wants
    (MessageListener.mk quiet_callback (Some (re.literal "python")) None)
    (JDict []) ["python3"] = Ok true.
Proof.
  apply (proj1 wants_matches_at_start
           (MessageListener.mk quiet_callback (Some (re.literal "python")) None)
           (re.literal "python") (JDict []) ["python3"] eq_refl eq_refl).
  exists "python3", "python", "3". split; [apply list_elem_of_here|].
  split; [reflexivity|]. by apply re_fullmatch_spec.
Defined.

(** C2, as stated, fails: the pattern thon is found in python by a search,
    and the listener does not want the message. *)
Lemma wants_rejects_match_inside :
  re.search (re.literal "thon") "python" = true
  ∧ MessageListener.wants
      (MessageListener.mk quiet_callback (Some (re.literal "thon")) None)
      (JDict []) ["python"] = Ok false.
Proof. split; reflexivity. Qed.

(** ** Dictionaries *)

Section dict_facts.
Context {K V : Type} `{EqDecision K}.
Implicit Types (d : dict K V) (k : K) (v : V).

Lemma dict_get_set k k' v d :
  dict_get k (dict_set k' v d) = if decide (k = k') then Some v else dict_get k d.
Proof.
  induction d as [|[k0 v0] d IH]; simpl.
  - by destruct (decide (k = k')).
  - destruct (decide (k' = k0)) as [->|Hne]; simpl.
    + by destruct (decide (k = k0)).
    + destruct (decide (k = k0)) as [->|]; [|done].
      by rewrite decide_False by done.
Qed.

Lemma dict_get_None k d : dict_get k d = None ↔ k ∉ dict_keys d.
Proof.
  unfold dict_keys. induction d as [|[k0 v0] d IH].
  - split; [intros _; apply not_elem_of_nil|done].
  - rewrite fmap_cons, not_elem_of_cons. cbn [dict_get fst].
    destruct (decide (k = k0)) as [->|Hne].
    + split; [done|]. by intros [? _].
    + rewrite IH. split; [by intros ?; split|by intros [_ ?]].
Qed.

Lemma dict_get_Some_elem k v d : dict_get k d = Some v → (k, v) ∈ d.
Proof.
  induction d as [|[k0 v0] d IH]; simpl; [done|].
  destruct (decide (k = k0)) as [->|].
  - intros [= ->]. apply list_elem_of_here.
  - intros ?. apply list_elem_of_further. auto.
Qed.

Lemma dict_get_is_Some k d : is_Some (dict_get k d) ↔ k ∈ dict_keys d.
Proof.
  rewrite <-not_eq_None_Some, dict_get_None.
  split; [apply dec_stable|by intros ??].
Qed.

Lemma dict_keys_set k v d :
  dict_keys (dict_set k v d) =
  if decide (k ∈ dict_keys d) then dict_keys d else dict_keys d ++ [k].
Proof.
  unfold dict_keys. induction d as [|[k0 v0] d IH].
  - destruct (decide (k ∈ [])) as [Hin|]; [|done].
    by apply not_elem_of_nil in Hin.
  - cbn [dict_set]. rewrite !fmap_cons. cbn [fst].
    destruct (decide (k = k0)) as [->|Hne].
    + rewrite fmap_cons. cbn [fst].
      destruct (decide (k0 ∈ k0 :: d.*1)) as [|Hnin]; [done|].
      destruct Hnin. apply list_elem_of_here.
    + rewrite fmap_cons, IH. cbn [fst].
      destruct (decide (k ∈ d.*1)) as [Hin|Hin],
               (decide (k ∈ k0 :: d.*1)) as [Hin'|Hin']; try done.
      * destruct Hin'. by apply list_elem_of_further.
      * apply elem_of_cons in Hin' as [?|?]; done.
Qed.

Lemma dict_set_NoDup k v d :
  NoDup (dict_keys d) → NoDup (dict_keys (dict_set k v d)).
Proof.
  intros Hd. rewrite dict_keys_set. destruct (decide _) as [|Hin]; [done|].
  apply NoDup_app. split; [done|]. split; [|apply NoDup_singleton].
  intros x Hx ->%list_elem_of_singleton. done.
Qed.

Lemma dict_update_NoDup d items :
  NoDup (dict_keys d) → NoDup (dict_keys (dict_update d items)).
Proof.
  unfold dict_update. revert d.
  induction items as [|[k v] items IH]; intros d Hd; simpl; [done|].
  by apply IH, dict_set_NoDup.
Qed.

Lemma dict_get_app k d1 d2 :
  dict_get k (d1 ++ d2) =
  match dict_get k d1 with Some v => Some v | None => dict_get k d2 end.
Proof.
  induction d1 as [|[k0 v0] d1 IH]; simpl; [done|].
  by destruct (decide (k = k0)).
Qed.

Lemma assoc_last_cons k k0 v0 (items : list (K * V)) :
  assoc_last k ((k0, v0) :: items) =
  match assoc_last k items with
  | Some v => Some v
  | None => if decide (k = k0) then Some v0 else None
  end.
Proof. unfold assoc_last. by rewrite reverse_cons, dict_get_app. Qed.

(** After [d.update(items)] a key holds the value of its last pair in
    [items], or else what it held in [d]. *)
Lemma dict_get_update k d items :
  dict_get k (dict_update d items) =
  match assoc_last k items with Some v => Some v | None => dict_get k d end.
Proof.
  unfold dict_update. revert d.
  induction items as [|[k0 v0] items IH]; intros d; simpl; [done|].
  rewrite IH, assoc_last_cons, dict_get_set.
  by destruct (assoc_last k items), (decide (k = k0)).
Qed.

Lemma assoc_last_NoDup k d : NoDup (dict_keys d) → assoc_last k d = dict_get k d.
Proof.
  unfold dict_keys. induction d as [|[k0 v0] d IH]; [done|].
  rewrite fmap_cons, NoDup_cons. cbn [fst]. intros [Hk0 Hd].
  rewrite assoc_last_cons, IH by done. simpl.
  destruct (decide (k = k0)) as [->|]; [|by destruct (dict_get k d)].
  apply dict_get_None in Hk0. by rewrite Hk0.
Qed.

Lemma dict_get_filter (f : K * V → bool) k d :
  NoDup (dict_keys d) →
  dict_get k (List.filter f d) =
  match dict_get k d with
  | Some v => if f (k, v) then Some v else None
  | None => None
  end.
Proof.
  unfold dict_keys. induction d as [|[k0 v0] d IH]; [done|].
  rewrite fmap_cons, NoDup_cons. cbn [fst]. intros [Hk0 Hd]. simpl.
  destruct (decide (k = k0)) as [->|Hne].
  - destruct (f (k0, v0)); simpl.
    + by rewrite decide_True.
    + rewrite IH by done. apply dict_get_None in Hk0. by rewrite Hk0.
  - destruct (f (k0, v0)); simpl; [rewrite decide_False by done|]; by apply IH.
Qed.

Lemma dict_keys_filter_NoDup (f : K * V → bool) d :
  NoDup (dict_keys d) → NoDup (dict_keys (List.filter f d)).
Proof.
  unfold dict_keys. induction d as [|[k0 v0] d IH]; [done|].
  rewrite fmap_cons, NoDup_cons. cbn [fst]. intros [Hk0 Hd]. simpl.
  destruct (f (k0, v0)); [|by apply IH].
  rewrite fmap_cons, NoDup_cons. cbn [fst]. split; [|by apply IH].
  intros Hin. apply Hk0.
  apply list_elem_of_fmap in Hin as ([k1 v1] & Heq & Hin). simpl in Heq. subst k1.
  apply list_elem_of_In, filter_In in Hin as [Hin _].
  apply list_elem_of_fmap. exists (k0, v1). split; [done|].
  by apply list_elem_of_In.
Qed.

Lemma dict_get_alter (f : V → V) k k' d :
  dict_get k (dict_alter f k' d) =
  if decide (k = k') then f <$> dict_get k d else dict_get k d.
Proof.
  unfold dict_alter. induction d as [|[k0 v0] d IH].
  - simpl. by destruct (decide (k = k')).
  - rewrite fmap_cons. cbn [fst snd dict_get].
    destruct (decide (k0 = k')) as [->|Hne]; cbn [dict_get].
    + destruct (decide (k = k')) as [->|Hkk]; done.
    + destruct (decide (k = k0)) as [->|Hkk]; [|done]. by destruct (decide (k0 = k')).
Qed.

Lemma dict_keys_alter (f : V → V) k d : dict_keys (dict_alter f k d) = dict_keys d.
Proof.
  unfold dict_keys, dict_alter. rewrite <-list_fmap_compose.
  apply list_fmap_ext. intros _ [k0 v0] _. simpl. by destruct (decide _).
Qed.
End dict_facts.

(** ** Spec resolution *)

Lemma set_language_servers_id self :
  set_language_servers (language_servers self) self = self.
Proof. by destruct self. Qed.

Section init_language_servers_facts.
Variable iter_entry_points : result (list EntryPoint.t).
Variable schema_valid : dict string LanguageServerSpec.t → bool.

(** C5. [init_language_servers] lays the configured specs over the
    detected ones (none when [autodetect] is off), so a configured key wins
    over a detected one, and keeps the entries whose [argv] and [languages]
    are both non-empty: a key configured with an empty [argv] or empty
    [languages] is absent from the resolved specs, detected or not. *)
Theorem init_language_servers_overlay self :
  NoDup (dict_keys (language_servers self)) →
  let detected : dict string LanguageServerSpec.t :=
    if autodetect self
    then dict_update [] (_autodetect_language_servers iter_entry_points schema_valid self)
    else [] in
  ∃ resolved,
    init_language_servers iter_entry_points schema_valid self
      = (Ok tt, set_language_servers resolved self)
    ∧ NoDup (dict_keys resolved)
    ∧ (∀ key,
         dict_get key resolved =
         match dict_get key (language_servers self) with
         | Some spec => if LanguageServerSpec.usable spec then Some spec else None
         | None =>
             match dict_get key detected with
             | Some spec => if LanguageServerSpec.usable spec then Some spec else None
             | None => None
             end
         end)
    ∧ (∀ key spec,
         dict_get key (language_servers self) = Some spec →
         LanguageServerSpec.truthy (LanguageServerSpec.argv spec) = false
         ∨ LanguageServerSpec.truthy (LanguageServerSpec.languages spec) = false →
         dict_get key resolved = None).
Proof.
  intros Hconfig detected.
  set (merged := dict_update detected (dict_items (language_servers self))).
  assert (NoDup (dict_keys merged)) as Hmerged.
  { apply dict_update_NoDup. unfold detected.
    destruct (autodetect self); [|apply NoDup_nil_2].
    apply dict_update_NoDup, NoDup_nil_2. }
  assert (∀ key,
    dict_get key (List.filter (λ kv, LanguageServerSpec.usable kv.2) merged) =
    match dict_get key (language_servers self) with
    | Some spec => if LanguageServerSpec.usable spec then Some spec else None
    | None =>
        match dict_get key detected with
        | Some spec => if LanguageServerSpec.usable spec then Some spec else None
        | None => None
        end
    end) as Hget.
  { intros key. rewrite dict_get_filter by done. unfold merged.
    rewrite dict_get_update. unfold dict_items.
    rewrite assoc_last_NoDup by done.
    by destruct (dict_get key (language_servers self)). }
  exists (List.filter (λ kv, LanguageServerSpec.usable kv.2) merged).
  split; [|split; [|split]].
  - reflexivity.
  - by apply dict_keys_filter_NoDup.
  - done.
  - intros key spec Hspec Hempty. rewrite Hget, Hspec.
    unfold LanguageServerSpec.usable.
    by destruct Hempty as [-> | ->]; rewrite ?andb_false_r.
Qed.
End init_language_servers_facts.

(** The python server is detected under the key py and configured away. *)
Lemma init_language_servers_overlay_witness :
  dict_get "py"
    (language_servers
       (init_language_servers (Ok [py_entry_point]) (λ _, true) opted_out_manager).2)
  = None.
Proof.
  destruct (init_language_servers_overlay (Ok [py_entry_point]) (λ _, true)
              opted_out_manager) as (resolved & Hrun & _ & _ & Hoff).
  { apply NoDup_singleton. }
  rewrite Hrun. apply (Hoff "py" empty_spec); [reflexivity|by left].
Defined.
(** ** Session keys *)

Lemma sorted_Sorted languages : Sorted String.le (sorted languages).
Proof. apply (Sorted_merge_sort String.le). Qed.

Lemma sorted_Permutation languages : sorted languages ≡ₚ languages.
Proof. apply (merge_sort_Permutation String.le). Qed.

Lemma sorted_eq_iff l1 l2 : sorted l1 = sorted l2 ↔ l1 ≡ₚ l2.
Proof.
  split.
  - intros Heq. by rewrite <-(sorted_Permutation l1), Heq, sorted_Permutation.
  - intros Hperm. apply (Sorted_unique String.le); try apply sorted_Sorted.
    by rewrite !sorted_Permutation.
Qed.

Lemma remove_dups_NoDup {A} `{EqDecision A} (l : list A) :
  NoDup l → remove_dups l = l.
Proof.
  induction 1 as [|x l Hx _ IH]; simpl; [done|].
  destruct (decide_rel elem_of x l); [done|by rewrite IH].
Qed.

Lemma init_sessions_loop_resolved specs table :
  Forall (λ spec, is_Some (LanguageServerSpec.languages spec)) specs →
  init_sessions_loop specs table =
  Ok (dict_update table
        ((λ spec, (sorted (default [] (LanguageServerSpec.languages spec)),
                   LanguageServerSession.new spec)) <$> specs)).
Proof.
  intros Hspecs. revert table.
  induction Hspecs as [|spec specs [languages Hl] _ IH]; intros table; [done|].
  cbn [init_sessions_loop]. unfold LanguageServerSpec.getitem_languages.
  rewrite Hl. cbn [result_bind]. rewrite IH, fmap_cons. unfold dict_update.
  cbn [foldl fst snd]. by rewrite Hl.
Qed.

Lemma set_sessions_id self : set_sessions (sessions self) self = self.
Proof. by destruct self. Qed.

Lemma init_sessions_run self :
  init_sessions self =
  match init_sessions_loop (dict_values (language_servers self)) [] with
  | Ok table => (Ok tt, set_sessions table self)
  | Raise e => (Raise e, self)
  end.
Proof.
  unfold init_sessions, mbind, M_mbind, M_bind, get, lift, modify.
  by destruct (init_sessions_loop _ _).
Qed.

(** C4, as the code has it. For resolved specs (each has its [languages]),
    [init_sessions] keys each session by the sorted tuple of the spec's
    [languages] list, repeats kept; this is the sorted tuple of the distinct
    languages when the list names no language twice.  The table has one
    session per key: specs whose lists are permutations of each other (so
    two lists without repeats that name the same languages) share a key, and
    the session under it is built from the last such spec in iteration
    order. *)
Theorem init_sessions_keys self :
  Forall (λ spec, is_Some (LanguageServerSpec.languages spec))
         (dict_values (language_servers self)) →
  ∃ table,
    init_sessions self = (Ok tt, set_sessions table self)
    ∧ NoDup (dict_keys table)
    ∧ (∀ key,
         key ∈ dict_keys table ↔
         ∃ spec languages,
           spec ∈ dict_values (language_servers self)
           ∧ LanguageServerSpec.languages spec = Some languages
           ∧ key = sorted languages)
    ∧ (∀ before spec after languages,
         dict_values (language_servers self) = before ++ spec :: after →
         LanguageServerSpec.languages spec = Some languages →
         (∀ spec' languages',
            spec' ∈ after →
            LanguageServerSpec.languages spec' = Some languages' →
            ¬ languages' ≡ₚ languages) →
         dict_get (sorted languages) table = Some (LanguageServerSession.new spec))
    ∧ (∀ languages,
         Sorted String.le (sorted languages) ∧ sorted languages ≡ₚ languages)
    ∧ (∀ l1 l2, sorted l1 = sorted l2 ↔ l1 ≡ₚ l2)
    ∧ (∀ l1 l2,
         NoDup l1 → NoDup l2 → (∀ x, x ∈ l1 ↔ x ∈ l2) →
         sorted l1 = sorted l2 ∧ sorted l1 = SessionKey l1).
Proof.
  intros Hspecs.
  set (item := λ spec : LanguageServerSpec.t,
         (sorted (default [] (LanguageServerSpec.languages spec)),
          LanguageServerSession.new spec)).
  exists (dict_update [] (item <$> dict_values (language_servers self))).
  split; [|split; [|split; [|split; [|split; [|split]]]]].
  - by rewrite init_sessions_run, (init_sessions_loop_resolved _ _ Hspecs).
  - apply dict_update_NoDup, NoDup_nil_2.
  - intros key. rewrite <-dict_get_is_Some, dict_get_update. cbn [dict_get].
    unfold assoc_last. split.
    + intros [session Hget].
      destruct (dict_get key (reverse _)) as [session'|] eqn:Hlast; [|done].
      apply dict_get_Some_elem, elem_of_reverse, list_elem_of_fmap in Hlast
        as (spec & [= -> _] & Hin).
      rewrite Forall_forall in Hspecs. destruct (Hspecs _ Hin) as [languages Hl].
      exists spec, languages. by rewrite Hl.
    + intros (spec & languages & Hin & Hl & ->).
      destruct (dict_get (sorted languages) (reverse _)) as [session|] eqn:Hlast;
        [by eexists|].
      apply dict_get_None in Hlast. destruct Hlast.
      unfold dict_keys. apply list_elem_of_fmap. exists (item spec).
      split; [unfold item; by rewrite Hl|].
      apply elem_of_reverse, list_elem_of_fmap. by exists spec.
  - intros before spec after languages Hsplit Hl Hlast.
    rewrite dict_get_update, Hsplit. unfold assoc_last.
    rewrite fmap_app, fmap_cons, reverse_app, reverse_cons, <-app_assoc.
    rewrite dict_get_app.
    destruct (dict_get (sorted languages) (reverse (item <$> after)))
      as [session|] eqn:Hafter.
    + apply dict_get_Some_elem, elem_of_reverse, list_elem_of_fmap in Hafter
        as (spec' & [= Hkey _] & Hin).
      rewrite Forall_forall in Hspecs.
      destruct (Hspecs spec') as [languages' Hl'].
      { rewrite Hsplit. apply elem_of_app. right. by apply list_elem_of_further. }
      rewrite Hl' in Hkey. simpl in Hkey. symmetry in Hkey.
      apply sorted_eq_iff in Hkey. by destruct (Hlast spec' languages').
    + cbn [app dict_get]. unfold item at 1. rewrite Hl. cbn [default].
      by rewrite decide_True.
  - intros languages. split; [apply sorted_Sorted|apply sorted_Permutation].
  - apply sorted_eq_iff.
  - intros l1 l2 H1 H2 Hsame. split.
    + apply sorted_eq_iff. by apply NoDup_Permutation.
    + unfold SessionKey. by rewrite remove_dups_NoDup.
Qed.

(** Two specs for css and json, listed in different orders: one session,
    from the second spec. *)
Lemma init_sessions_keys_witness :
  dict_get ["css"; "json"] (sessions (init_sessions web_manager).2)
  = Some (LanguageServerSession.new other_web_spec).
Proof.
  destruct (init_sessions_keys web_manager) as (table & Hrun & _ & _ & Hlast & _).
  { repeat constructor; by eexists. }
  rewrite Hrun.
  apply (Hlast [web_spec] other_web_spec [] ["css"; "json"]); [done..|].
  intros spec' languages' Hin. by apply elem_of_nil in Hin.
Defined.

(** C4, as stated, fails: a spec that names python twice gets a key with the
    repeat, which is not the key of its distinct languages, and so a session
    of its own beside the one of a spec for the same language set. *)
Lemma init_sessions_keeps_repeats :
  dict_keys (sessions (init_sessions repeated_manager).2)
    = [["python"]; ["python"; "python"]]
  ∧ SessionKey ["python"; "python"] = ["python"]
  ∧ SessionKey ["python"; "python"] = SessionKey ["python"].
Proof. by vm_compute. Qed.
(** ** Initialization as a whole *)

Section initialize_facts.
Variable iter_entry_points : result (list EntryPoint.t).
Variable schema_valid : dict string LanguageServerSpec.t → bool.

(** Every resolved spec has its [languages], so [init_sessions] after
    [init_language_servers] does not raise. *)
Lemma initialize_returns self :
  ∃ table,
    initialize iter_entry_points schema_valid self
    = (Ok tt,
       set_sessions table
         (init_language_servers iter_entry_points schema_valid self).2).
Proof.
  unfold initialize, mbind, M_mbind, M_bind.
  destruct (init_language_servers iter_entry_points schema_valid self)
    as [r self'] eqn:Hresolve.
  assert (r = Ok tt
          ∧ Forall (λ spec, is_Some (LanguageServerSpec.languages spec))
                   (dict_values (language_servers self'))) as [-> Hspecs].
  { unfold init_language_servers, mbind, M_mbind, M_bind, get, modify in Hresolve.
    injection Hresolve as <- <-. split; [done|].
    cbn [language_servers set_language_servers]. unfold dict_values.
    apply Forall_forall. intros spec ([key spec'] & -> & Hin)%list_elem_of_fmap.
    apply list_elem_of_In, filter_In in Hin as [_ Husable]. cbn [snd] in *.
    apply andb_true_iff in Husable as [_ Hl]. unfold LanguageServerSpec.truthy in Hl.
    destruct (LanguageServerSpec.languages spec'); [by eexists|done]. }
  rewrite init_sessions_run, (init_sessions_loop_resolved _ _ Hspecs).
  by eexists.
Qed.
End initialize_facts.

(** ** Subscriptions *)

Lemma for_each_cons {X} (x : X) xs (body : X → M unit) self :
  for_each (x :: xs) body self =
  match body x self with
  | (Ok _, self') => for_each xs body self'
  | (Raise e, self') => (Raise e, self')
  end.
Proof. reflexivity. Qed.

Lemma dict_ext {K V} `{EqDecision K} (d1 d2 : dict K V) :
  NoDup (dict_keys d1) →
  dict_keys d1 = dict_keys d2 →
  (∀ k, dict_get k d1 = dict_get k d2) →
  d1 = d2.
Proof.
  unfold dict_keys. revert d2.
  induction d1 as [|[k1 v1] d1 IH]; intros [|[k2 v2] d2]; try done.
  rewrite !fmap_cons, NoDup_cons. cbn [fst]. intros [Hk1 Hd1] [= <- Hkeys] Hget.
  pose proof (Hget k1) as Hhead. cbn [dict_get] in Hhead.
  repeat case_decide; try done. injection Hhead as <-.
  f_equal. apply IH; [done..|]. intros k. specialize (Hget k).
  cbn [dict_get] in Hget. destruct (decide (k = k1)) as [->|]; [|done].
  assert (dict_get k1 d1 = None) as -> by by apply dict_get_None.
  symmetry. apply dict_get_None. unfold dict_keys. by rewrite <-Hkeys.
Qed.

(** A loop whose body assigns, to the session under each key in turn, a
    value computed from that session. *)
Lemma for_each_setattr
    (body : list string * LanguageServerSession.t → M unit)
    (V : LanguageServerSession.t → handlers_value)
    (P : LanguageServerSession.t → Prop) :
  (∀ kv self session,
     dict_get kv.1 (sessions self) = Some session → P session →
     body kv self =
     (Ok tt, set_sessions
               (dict_alter (LanguageServerSession.with_handlers (V session))
                           kv.1 (sessions self)) self)) →
  ∀ targets self,
    NoDup targets.*1 →
    (∀ key, key ∈ targets.*1 →
       ∃ session, dict_get key (sessions self) = Some session ∧ P session) →
    ∃ table,
      for_each targets body self = (Ok tt, set_sessions table self)
      ∧ dict_keys table = dict_keys (sessions self)
      ∧ ∀ key,
          dict_get key table =
          if decide (key ∈ targets.*1)
          then (λ session, LanguageServerSession.with_handlers (V session) session)
                 <$> dict_get key (sessions self)
          else dict_get key (sessions self).
Proof.
  intros Hbody targets.
  induction targets as [|[key1 session1] targets IH]; intros self Hnodup Hpre.
  - exists (sessions self). split; [by rewrite set_sessions_id|]. split; [done|].
    intros key. rewrite decide_False; [done|apply not_elem_of_nil].
  - rewrite fmap_cons in Hnodup, Hpre. cbn [fst] in Hnodup, Hpre.
    apply NoDup_cons in Hnodup as [Hkey1 Hnodup].
    destruct (Hpre key1) as (session & Hget1 & HP); [apply list_elem_of_here|].
    rewrite for_each_cons, (Hbody (key1, session1) self session Hget1 HP).
    cbn [fst].
    set (self1 := set_sessions _ self).
    destruct (IH self1 Hnodup) as (table & Hrun & Hkeys & Hget).
    { intros key Hin. destruct (Hpre key) as (session' & Hget' & HP');
        [by apply list_elem_of_further|].
      exists session'. split; [|done]. unfold self1. cbn [sessions set_sessions].
      rewrite dict_get_alter, decide_False; [done|]. by intros ->. }
    exists table. split; [exact Hrun|]. split.
    { rewrite Hkeys. unfold self1. cbn [sessions set_sessions].
      apply dict_keys_alter. }
    intros key. rewrite Hget. unfold self1. cbn [sessions set_sessions].
    rewrite dict_get_alter, fmap_cons. cbn [fst].
    destruct (decide (key = key1)) as [->|Hne].
    + rewrite decide_False by done.
      rewrite decide_True by apply list_elem_of_here. by rewrite Hget1.
    + destruct (decide (key ∈ targets.*1)) as [Hin|Hin].
      * rewrite decide_True; [done|by apply list_elem_of_further].
      * rewrite decide_False; [done|]. by apply not_elem_of_cons.
Qed.

Lemma filter_keys {V} (f : list string * V → bool) (d : dict (list string) V) key :
  key ∈ (List.filter f d).*1 → key ∈ dict_keys d.
Proof.
  intros ([k v] & -> & Hin)%list_elem_of_fmap.
  apply list_elem_of_In, filter_In in Hin as [Hin _].
  apply list_elem_of_fmap. exists (k, v). split; [done|by apply list_elem_of_In].
Qed.
Lemma set_sessions_twice table1 table2 self :
  set_sessions table2 (set_sessions table1 self) = set_sessions table2 self.
Proof. reflexivity. Qed.

Lemma dict_get_NoDup_elem {K V} `{EqDecision K} (k : K) (v : V) (d : dict K V) :
  NoDup (dict_keys d) → (k, v) ∈ d → dict_get k d = Some v.
Proof.
  unfold dict_keys. induction d as [|[k0 v0] d IH]; intros Hnodup Hin.
  { by apply elem_of_nil in Hin. }
  rewrite fmap_cons, NoDup_cons in Hnodup. cbn [fst] in Hnodup.
  destruct Hnodup as [Hk0 Hnodup]. cbn [dict_get].
  apply elem_of_cons in Hin as [[= -> ->]|Hin]; [by rewrite decide_True|].
  rewrite decide_False; [by apply IH|].
  intros ->. apply Hk0, list_elem_of_fmap. by exists (k0, v).
Qed.

Section subscription_facts.
Variable assign_handlers : handlers_value → handlers_value.

Lemma subscribe_run handler self :
  subscribe assign_handlers handler self =
  for_each
    (List.filter
       (λ kv : list string * LanguageServerSession.t,
          bool_decide (Handler.language handler ∈ kv.1))
       (dict_items (sessions self)))
    (λ session,
       current ← getattr_handlers session.1;
       value ← lift (set_or {[ handler ]} current);
       setattr_handlers assign_handlers session.1 value)
    self.
Proof.
  unfold subscribe, mbind, M_mbind, M_bind, get. cbv beta iota.
  by destruct (List.filter _ _).
Qed.

Lemma subscribe_targets handler (table : dict (list string) LanguageServerSession.t) key :
  key ∈ (List.filter
           (λ kv : list string * LanguageServerSession.t,
              bool_decide (Handler.language handler ∈ kv.1)) table).*1
  ↔ key ∈ dict_keys table ∧ Handler.language handler ∈ key.
Proof.
  unfold dict_keys. rewrite !list_elem_of_fmap. split.
  - intros ([k v] & -> & Hin). apply list_elem_of_In, filter_In in Hin as [Hin Hk].
    apply bool_decide_eq_true in Hk. split; [|done].
    exists (k, v). split; [done|by apply list_elem_of_In].
  - intros [([k v] & -> & Hin) Hlang]. exists (k, v). split; [done|].
    apply list_elem_of_In, filter_In. split; [by apply list_elem_of_In|].
    by apply bool_decide_eq_true.
Qed.

(** What [subscribe] assigns to a session. *)
Lemma subscribe_spec handler self :
  NoDup (dict_keys (sessions self)) →
  (∀ key session,
     dict_get key (sessions self) = Some session →
     Handler.language handler ∈ key →
     ∃ s, LanguageServerSession.handlers session = PySet s) →
  ∃ table,
    subscribe assign_handlers handler self = (Ok tt, set_sessions table self)
    ∧ dict_keys table = dict_keys (sessions self)
    ∧ ∀ key,
        dict_get key table =
        if decide (Handler.language handler ∈ key)
        then (λ session,
                LanguageServerSession.with_handlers
                  (assign_handlers
                     match LanguageServerSession.handlers session with
                     | PySet s => PySet ({[ handler ]} ∪ s)
                     | PyList l => PyList l
                     end) session)
               <$> dict_get key (sessions self)
        else dict_get key (sessions self).
Proof.
  intros Hnodup Hsets. rewrite subscribe_run.
  edestruct (for_each_setattr
    (λ session,
       current ← getattr_handlers session.1;
       value ← lift (set_or {[ handler ]} current);
       setattr_handlers assign_handlers session.1 value)
    (λ session,
       assign_handlers
         match LanguageServerSession.handlers session with
         | PySet s => PySet ({[ handler ]} ∪ s)
         | PyList l => PyList l
         end)
    (λ session, ∃ s, LanguageServerSession.handlers session = PySet s))
    as (table & Hrun & Hkeys & Hget).
  - intros kv self' session Hget [s Hs].
    unfold getattr_handlers, setattr_handlers, mbind, M_mbind, M_bind, get,
      lift, modify, mret, M_mret, M_ret.
    cbv beta iota. rewrite Hget. cbv beta iota. by rewrite Hs.
  - by apply dict_keys_filter_NoDup.
  - intros key [Hkey Hlang]%subscribe_targets.
    apply dict_get_is_Some in Hkey as [session Hget].
    exists session. split; [done|]. by eapply Hsets.
  - exists table. split; [exact Hrun|]. split; [exact Hkeys|].
    intros key. rewrite Hget.
    destruct (decide (key ∈ _)) as [[Hkey Hlang]%subscribe_targets|Hnot].
    + by rewrite decide_True.
    + destruct (decide (Handler.language handler ∈ key)) as [Hlang|]; [|done].
      assert (dict_get key (sessions self) = None) as ->; [|done].
      apply dict_get_None. intros Hkey. apply Hnot, subscribe_targets. done.
Qed.

(** C8. Where the targeted sessions hold sets of handlers (and a set that
    is assigned stays a set), [subscribe] succeeds, adds the handler to the
    handlers of each session whose key contains the handler's language and
    leaves every other session as it was; subscribing the same handler
    again changes nothing, so each session holds the handler once. *)
Theorem subscribe_adds_once handler self :
  (∀ s, assign_handlers (PySet s) = PySet s) →
  NoDup (dict_keys (sessions self)) →
  (∀ key session,
     dict_get key (sessions self) = Some session →
     Handler.language handler ∈ key →
     ∃ s, LanguageServerSession.handlers session = PySet s) →
  ∃ table,
    subscribe assign_handlers handler self = (Ok tt, set_sessions table self)
    ∧ dict_keys table = dict_keys (sessions self)
    ∧ (∀ key session,
         dict_get key (sessions self) = Some session →
         (Handler.language handler ∈ key →
          ∃ s, LanguageServerSession.handlers session = PySet s
               ∧ dict_get key table =
                 Some (LanguageServerSession.with_handlers
                         (PySet ({[ handler ]} ∪ s)) session))
         ∧ (Handler.language handler ∉ key → dict_get key table = Some session))
    ∧ subscribe assign_handlers handler (set_sessions table self)
      = (Ok tt, set_sessions table self).
Proof.
  intros Hassign Hnodup Hsets.
  destruct (subscribe_spec handler self Hnodup Hsets) as (table & Hrun & Hkeys & Hget).
  assert (∀ key session,
    dict_get key table = Some session →
    Handler.language handler ∈ key →
    ∃ s, LanguageServerSession.handlers session = PySet s
         ∧ LanguageServerSession.with_handlers
             (assign_handlers (PySet ({[ handler ]} ∪ s))) session = session)
    as Hsets'.
  { intros key session Hsession Hlang. rewrite Hget, decide_True in Hsession by done.
    destruct (dict_get key (sessions self)) as [session0|] eqn:Hget0; [|done].
    destruct (Hsets key session0 Hget0 Hlang) as [s Hs].
    injection Hsession as <-. rewrite Hs, Hassign.
    exists ({[ handler ]} ∪ s). split; [done|].
    unfold LanguageServerSession.with_handlers. cbn. rewrite Hassign.
    do 2 f_equal. by rewrite (assoc_L (∪)), (idemp_L (∪) {[ handler ]}). }
  exists table. split; [exact Hrun|]. split; [exact Hkeys|]. split.
  - intros key session Hsession. rewrite Hget, Hsession. split.
    + intros Hlang. destruct (Hsets key session Hsession Hlang) as [s Hs].
      exists s. split; [done|]. rewrite decide_True by done. simpl.
      by rewrite Hs, Hassign.
    + intros Hlang. by rewrite decide_False.
  - destruct (subscribe_spec handler (set_sessions table self))
      as (table' & Hrun' & Hkeys' & Hget').
    { cbn [sessions set_sessions]. by rewrite Hkeys. }
    { intros key session Hsession Hlang.
      destruct (Hsets' key session Hsession Hlang) as (s & Hs & _). by exists s. }
    rewrite Hrun'. cbn [sessions set_sessions] in *.
    rewrite set_sessions_twice. assert (table' = table) as ->; [|done].
    apply dict_ext; [by rewrite Hkeys', Hkeys|done|].
    intros key. rewrite Hget'.
    destruct (decide (Handler.language handler ∈ key)) as [Hlang|]; [|done].
    destruct (dict_get key table) as [session|] eqn:Hsession; [|done].
    destruct (Hsets' key session Hsession Hlang) as (s & Hs & Hfix).
    cbn. by rewrite Hs, Hfix.
Qed.

Lemma unsubscribe_run handler self :
  unsubscribe assign_handlers handler self =
  for_each (sessions_for_handler self handler)
    (λ session,
       current ← getattr_handlers session.1;
       setattr_handlers assign_handlers session.1
         (PyList (List.filter (λ h, bool_decide (h ≠ handler))
                              (iter_handlers current))))
    self.
Proof. reflexivity. Qed.

(** A loop of [subscribe] that reaches a session holding a list raises,
    and leaves that session as it is. *)
Lemma subscribe_loop_raises handler targets self key session l :
  key ∈ targets.*1 →
  dict_get key (sessions self) = Some session →
  LanguageServerSession.handlers session = PyList l →
  (∀ k, k ∈ targets.*1 → is_Some (dict_get k (sessions self))) →
  ∃ table,
    for_each targets
      (λ session : list string * LanguageServerSession.t,
         current ← getattr_handlers session.1;
         value ← lift (set_or {[ handler ]} current);
         setattr_handlers assign_handlers session.1 value)
      self
    = (Raise (TypeError "unsupported operand type(s) for |: 'set' and 'list'"),
       set_sessions table self)
    ∧ dict_get key table = Some session.
Proof.
  revert self.
  induction targets as [|[key1 session1] targets IH];
    intros self Hin Hget Hlist Hpresent.
  { by apply elem_of_nil in Hin. }
  rewrite fmap_cons in Hin, Hpresent. cbn [fst] in Hin, Hpresent.
  destruct (Hpresent key1) as [current Hcurrent]; [apply list_elem_of_here|].
  rewrite for_each_cons.
  unfold getattr_handlers at 1, setattr_handlers at 1, mbind, M_mbind, M_bind,
    get, lift, modify, mret, M_mret, M_ret.
  cbv beta iota. cbn [fst]. rewrite Hcurrent. cbv beta iota.
  destruct (LanguageServerSession.handlers current) as [s|l'] eqn:Hvalue;
    cbn [set_or].
  - assert (key ≠ key1) as Hne.
    { intros ->. rewrite Hget in Hcurrent. injection Hcurrent as <-. congruence. }
    apply elem_of_cons in Hin as [?|Hin]; [done|].
    edestruct (IH (set_sessions
                     (dict_alter (LanguageServerSession.with_handlers
                                    (assign_handlers (PySet ({[ handler ]} ∪ s))))
                                 key1 (sessions self)) self))
      as (table & Hrun & Hkey); [exact Hin| | exact Hlist | |].
    + cbn [sessions set_sessions]. by rewrite dict_get_alter, decide_False.
    + intros k Hk. cbn [sessions set_sessions]. rewrite dict_get_alter.
      destruct (Hpresent k) as [session' Hsession'];
        [by apply list_elem_of_further|].
      rewrite Hsession'. destruct (decide (k = key1)); by eexists.
    + exists table. split; [exact Hrun|exact Hkey].
  - exists (sessions self). by rewrite set_sessions_id.
Qed.

(** What [unsubscribe] assigns to a session. *)
Lemma unsubscribe_spec handler self :
  NoDup (dict_keys (sessions self)) →
  ∃ table,
    unsubscribe assign_handlers handler self = (Ok tt, set_sessions table self)
    ∧ dict_keys table = dict_keys (sessions self)
    ∧ ∀ key,
        dict_get key table =
        (λ session,
           if handler_in handler (LanguageServerSession.handlers session)
           then LanguageServerSession.with_handlers
                  (assign_handlers
                     (PyList (List.filter (λ h, bool_decide (h ≠ handler))
                                (iter_handlers
                                   (LanguageServerSession.handlers session)))))
                  session
           else session)
          <$> dict_get key (sessions self).
Proof.
  intros Hnodup. rewrite unsubscribe_run.
  destruct (for_each_setattr
    (λ session : list string * LanguageServerSession.t,
       current ← getattr_handlers session.1;
       setattr_handlers assign_handlers session.1
         (PyList (List.filter (λ h, bool_decide (h ≠ handler))
                              (iter_handlers current))))
    (λ session,
       assign_handlers
         (PyList (List.filter (λ h, bool_decide (h ≠ handler))
                    (iter_handlers (LanguageServerSession.handlers session)))))
    (λ _, True)) with (targets := sessions_for_handler self handler) (self := self)
    as (table & Hrun & Hkeys & Hget).
  - intros kv self' session' Hget' _.
    unfold getattr_handlers, setattr_handlers, mbind, M_mbind, M_bind, get,
      lift, modify, mret, M_mret, M_ret.
    cbv beta iota. by rewrite Hget'.
  - unfold sessions_for_handler, dict_items. by apply dict_keys_filter_NoDup.
  - intros k Hk. apply filter_keys, dict_get_is_Some in Hk as [session' ?].
    by exists session'.
  - exists table. split; [exact Hrun|]. split; [exact Hkeys|].
    intros key. rewrite Hget.
    destruct (dict_get key (sessions self)) as [session|] eqn:Hsession.
    + destruct (decide (key ∈ _)) as [Hin|Hnin]; cbn [fmap option_fmap option_map].
      * apply list_elem_of_fmap in Hin as ([k session'] & -> & Hin).
        apply list_elem_of_In, filter_In in Hin as [Hin Hheld].
        cbn [fst snd] in *.
        rewrite (dict_get_NoDup_elem k session' (sessions self)) in Hsession;
          [|done|by apply list_elem_of_In].
        injection Hsession as ->. by rewrite Hheld.
      * destruct (handler_in handler (LanguageServerSession.handlers session))
          eqn:Hheld; [|done].
        destruct Hnin. apply list_elem_of_fmap. exists (key, session).
        split; [done|]. apply list_elem_of_In, filter_In. split; [|done].
        by apply list_elem_of_In, dict_get_Some_elem.
    + by destruct (decide (key ∈ _)).
Qed.
End subscription_facts.

(** A handler for json and the session for json and yaml. *)
Lemma subscribe_adds_once_witness :
  ∃ s, dict_get ["json"; "yaml"]
         (sessions (subscribe plain_attribute json_handler json_manager).2)
       = Some (LanguageServerSession.mk json_spec (PySet s))
       ∧ json_handler ∈ s.
Proof.
  destruct (subscribe_adds_once plain_attribute json_handler json_manager)
    as (table & Hrun & _ & Hadd & _).
  - done.
  - apply NoDup_singleton.
  - intros key session Hget _. cbn in Hget.
    destruct (decide (key = ["json"; "yaml"])); [|done].
    injection Hget as <-. by eexists.
  - destruct (Hadd ["json"; "yaml"] (LanguageServerSession.new json_spec) eq_refl)
      as [Hin _].
    destruct Hin as (s & _ & Hget); [apply list_elem_of_here|].
    rewrite Hrun. eexists. split; [exact Hget|].
    by apply elem_of_union_l, elem_of_singleton.
Defined.

(** *** The subscriber set *)

Lemma subscriber_set_set s : subscriber_set (PySet s) = PySet s.
Proof. unfold subscriber_set. cbn [iter_handlers]. by rewrite list_to_set_elements_L. Qed.

Lemma subscriber_set_remaining handler s :
  subscriber_set
    (PyList (List.filter (λ h, bool_decide (h ≠ handler)) (elements s)))
  = PySet (s ∖ {[ handler ]}).
Proof.
  unfold subscriber_set. cbn [iter_handlers]. f_equal.
  apply set_eq. intros h.
  rewrite elem_of_list_to_set, list_elem_of_In, filter_In, <-list_elem_of_In,
    elem_of_elements, bool_decide_eq_true, elem_of_difference, elem_of_singleton.
  done.
Qed.

(** [unsubscribe] on sessions that hold sets, with [handlers] the
    subscriber set: each session is left with its set less the handler. *)
Lemma unsubscribe_subscriber_set handler self :
  NoDup (dict_keys (sessions self)) →
  (∀ key session,
     dict_get key (sessions self) = Some session →
     ∃ s, LanguageServerSession.handlers session = PySet s) →
  ∃ table,
    unsubscribe subscriber_set handler self = (Ok tt, set_sessions table self)
    ∧ dict_keys table = dict_keys (sessions self)
    ∧ ∀ key session s,
        dict_get key (sessions self) = Some session →
        LanguageServerSession.handlers session = PySet s →
        dict_get key table
        = Some (LanguageServerSession.with_handlers (PySet (s ∖ {[ handler ]}))
                  session).
Proof.
  intros Hnodup Hsets.
  destruct (unsubscribe_spec subscriber_set handler self Hnodup)
    as (table & Hrun & Hkeys & Hget).
  exists table. split; [exact Hrun|]. split; [exact Hkeys|].
  intros key session s Hsession Hs. rewrite Hget, Hsession.
  cbn [fmap option_fmap option_map]. f_equal. rewrite Hs.
  cbn [iter_handlers]. unfold handler_in. cbn [iter_handlers].
  case_bool_decide as Hheld.
  - by rewrite subscriber_set_remaining.
  - destruct session as [spec handlers]. cbn in Hs. subst handlers.
    unfold LanguageServerSession.with_handlers. cbn. do 2 f_equal.
    apply set_eq. intros h. rewrite elem_of_difference, elem_of_singleton.
    split; [|by intros [? _]]. intros Hh. split; [done|]. intros ->.
    by apply Hheld, elem_of_elements.
Qed.

(** C10. With [handlers] the subscriber set of a session, [unsubscribe]
    keeps the invariant that every session holds a set: the list it assigns
    is kept as the set of the remaining handlers, the handler gone.  A
    later [subscribe] of any handler whose language is in the session's key
    returns and adds that handler to the set; for the handler that was
    unsubscribed this gives the session back as it was, so unsubscribing
    and subscribing again restores membership. *)
Theorem unsubscribe_keeps_set handler key session s self :
  NoDup (dict_keys (sessions self)) →
  (∀ k session',
     dict_get k (sessions self) = Some session' →
     ∃ s', LanguageServerSession.handlers session' = PySet s') →
  dict_get key (sessions self) = Some session →
  LanguageServerSession.handlers session = PySet s →
  handler ∈ s →
  ∃ table,
    unsubscribe subscriber_set handler self = (Ok tt, set_sessions table self)
    ∧ dict_get key table
      = Some (LanguageServerSession.with_handlers (PySet (s ∖ {[ handler ]}))
                session)
    ∧ (∀ k session',
         dict_get k table = Some session' →
         ∃ s', LanguageServerSession.handlers session' = PySet s' ∧ handler ∉ s')
    ∧ ∀ other,
        Handler.language other ∈ key →
        ∃ table',
          subscribe subscriber_set other (set_sessions table self)
          = (Ok tt, set_sessions table' self)
          ∧ dict_get key table'
            = Some (LanguageServerSession.with_handlers
                      (PySet ({[ other ]} ∪ s ∖ {[ handler ]})) session)
          ∧ (other = handler → dict_get key table' = Some session).
Proof.
  intros Hnodup Hsets Hsession Hs Hin.
  destruct (unsubscribe_subscriber_set handler self Hnodup Hsets)
    as (table & Hrun & Hkeys & Hget).
  assert (∀ k session',
    dict_get k table = Some session' →
    ∃ s', LanguageServerSession.handlers session' = PySet s' ∧ handler ∉ s')
    as Hsets'.
  { intros k session' Hk.
    assert (is_Some (dict_get k (sessions self))) as [session0 Hsession0].
    { apply dict_get_is_Some. rewrite <-Hkeys. apply dict_get_is_Some. by eexists. }
    destruct (Hsets k session0 Hsession0) as [s0 Hs0].
    rewrite (Hget k session0 s0 Hsession0 Hs0) in Hk. injection Hk as <-.
    exists (s0 ∖ {[ handler ]}). split; [done|].
    rewrite elem_of_difference, elem_of_singleton. by intros [_ ?]. }
  exists table. split; [exact Hrun|].
  split; [by apply Hget|]. split; [exact Hsets'|].
  intros other Hother.
  destruct (subscribe_spec subscriber_set other (set_sessions table self))
    as (table' & Hrun' & _ & Hget').
  { cbn [sessions set_sessions]. by rewrite Hkeys. }
  { intros k session' Hk _. cbn [sessions set_sessions] in Hk.
    destruct (Hsets' k session' Hk) as (s' & Hs' & _). by exists s'. }
  rewrite set_sessions_twice in Hrun'. cbn [sessions set_sessions] in Hget'.
  assert (dict_get key table'
          = Some (LanguageServerSession.with_handlers
                    (PySet ({[ other ]} ∪ s ∖ {[ handler ]})) session)) as Hkey.
  { rewrite Hget', decide_True by done.
    rewrite (Hget key session s Hsession Hs).
    cbn [fmap option_fmap option_map]. f_equal.
    cbn [LanguageServerSession.handlers LanguageServerSession.with_handlers
         LanguageServerSession.spec].
    by rewrite subscriber_set_set. }
  exists table'. split; [exact Hrun'|]. split; [exact Hkey|].
  intros ->. rewrite Hkey. f_equal.
  destruct session as [spec handlers]. cbn in Hs. subst handlers.
  unfold LanguageServerSession.with_handlers. cbn. do 2 f_equal.
  apply set_eq. intros h.
  rewrite elem_of_union, elem_of_difference, elem_of_singleton.
  split; [by intros [->|[? _]]|]. intros Hh.
  destruct (decide (h = handler)); [by left|by right].
Qed.

(** The handler for python leaves its session and comes back. *)
Lemma unsubscribe_keeps_set_witness :
  ∃ table table',
    unsubscribe subscriber_set python_handler (python_manager HasListeners.empty)
    = (Ok tt, set_sessions table (python_manager HasListeners.empty))
    ∧ subscribe subscriber_set python_handler
        (set_sessions table (python_manager HasListeners.empty))
      = (Ok tt, set_sessions table' (python_manager HasListeners.empty))
    ∧ dict_get ["python"] table'
      = Some (LanguageServerSession.mk python_spec (PySet {[ python_handler ]})).
Proof.
  destruct (unsubscribe_keeps_set python_handler ["python"]
              (LanguageServerSession.mk python_spec (PySet {[ python_handler ]}))
              {[ python_handler ]} (python_manager HasListeners.empty))
    as (table & Hrun & _ & _ & Hback).
  - apply NoDup_singleton.
  - intros k session' Hk. cbn in Hk.
    destruct (decide (k = ["python"])); [|done].
    injection Hk as <-. by eexists.
  - done.
  - done.
  - by apply elem_of_singleton.
  - destruct (Hback python_handler) as (table' & Hrun' & _ & Hsame);
      [apply list_elem_of_here|].
    exists table, table'. split; [exact Hrun|]. split; [exact Hrun'|].
    by apply Hsame.
Defined.

(** After [unsubscribe], the session for python holds the empty set, not a
    list; [subscribe] then returns, and the manager is as it was before
    the handler was unsubscribed. *)
Lemma resubscribe_restores_membership :
  dict_get ["python"]
    (sessions (unsubscribe subscriber_set python_handler
                 (python_manager HasListeners.empty)).2)
  = Some (LanguageServerSession.mk python_spec (PySet ∅))
  ∧ subscribe subscriber_set python_handler
      (unsubscribe subscriber_set python_handler
         (python_manager HasListeners.empty)).2
    = (Ok tt, python_manager HasListeners.empty).
Proof. split; vm_compute; reflexivity. Qed.

(** ** Listener dispatch and routing *)

Lemma set_calls_id self : set_calls (calls self) self = self.
Proof. by destruct self. Qed.

Lemma call_listener_run lst scope message_dict languages self :
  call_listener lst scope message_dict languages self =
  (gathered (Callback.run (MessageListener.listener lst) scope message_dict languages),
   set_calls (calls self ++ listened scope message_dict languages [lst]) self).
Proof.
  unfold call_listener, mbind, M_mbind, M_bind, modify, lift, M_ret, gathered.
  cbv beta iota. by destruct (Callback.run _ _ _ _).
Qed.

(** [gather] awaits every listener and propagates the first exception. *)
Lemma gather_calls scope message_dict languages wanted self :
  gather ((λ lst, call_listener lst scope message_dict languages) <$> wanted) self =
  (gathered (first_raised scope message_dict languages wanted),
   set_calls (calls self ++ listened scope message_dict languages wanted) self).
Proof.
  revert self. induction wanted as [|lst wanted IH]; intros self.
  - cbn. by rewrite app_nil_r, set_calls_id.
  - rewrite fmap_cons. cbn [gather]. rewrite call_listener_run, IH.
    cbn [calls set_calls]. unfold first_raised, listened.
    rewrite fmap_cons, <-app_assoc. cbn [omap list_omap fmap list_fmap app].
    unfold set_calls. cbn.
    by destruct (Callback.run _ _ _ _).
Qed.

Lemma for_each_written message targets self :
  for_each targets
    (λ session : list string * LanguageServerSession.t,
       modify (record_call (Written session.1 message))) self
  = (Ok tt, set_calls (calls self ++ written message targets) self).
Proof.
  revert self. induction targets as [|target targets IH]; intros self.
  - cbn. by rewrite app_nil_r, set_calls_id.
  - rewrite for_each_cons. unfold modify at 1. rewrite IH.
    unfold written, record_call. rewrite fmap_cons. cbn [calls set_calls].
    unfold set_calls. cbn. by rewrite <-app_assoc.
Qed.

Lemma for_each_sent message targets self :
  for_each targets (λ handler, modify (record_call (Sent handler message))) self
  = (Ok tt, set_calls (calls self ++ sent message targets) self).
Proof.
  revert self. induction targets as [|target targets IH]; intros self.
  - cbn. by rewrite app_nil_r, set_calls_id.
  - rewrite for_each_cons. unfold modify at 1. rewrite IH.
    unfold sent, record_call. rewrite fmap_cons. cbn [calls set_calls].
    unfold set_calls. cbn. by rewrite <-app_assoc.
Qed.

Section dispatch_facts.
Variable json_loads : string → result json.

Lemma wait_for_listeners_run scope message languages self :
  wait_for_listeners json_loads scope message languages self =
  match HasListeners.getitem (_listeners self) scope
        ++ HasListeners.getitem (_listeners self) all with
  | [] => (Ok tt, self)
  | listeners =>
      match json_loads message with
      | Raise e => (Raise e, self)
      | Ok message_dict =>
          match wanted_listeners message_dict languages listeners with
          | Raise e => (Raise e, self)
          | Ok wanted =>
              (gathered (first_raised scope message_dict languages wanted),
               set_calls (calls self
                          ++ listened scope message_dict languages wanted) self)
          end
      end
  end.
Proof.
  unfold wait_for_listeners, mbind, M_mbind, M_bind, get, lift, mret, M_mret, M_ret.
  cbv beta iota.
  destruct (_ ++ _) as [|lst listeners]; [done|].
  destruct (json_loads message) as [message_dict|e]; [|done].
  destruct (wanted_listeners _ _ _) as [wanted|e]; [|done].
  rewrite <-gather_calls. by destruct wanted.
Qed.

Lemma on_client_message_run message handler self :
  on_client_message json_loads message handler self =
  match wait_for_listeners json_loads client message [Handler.language handler] self with
  | (Ok _, self') =>
      (Ok tt, set_calls (calls self'
                         ++ written message (sessions_for_handler self' handler))
                        self')
  | (Raise e, self') => (Raise e, self')
  end.
Proof.
  unfold on_client_message, mbind, M_mbind, M_bind, get. cbv beta iota.
  destruct (wait_for_listeners _ _ _ _ _) as [[[]|e] self']; [|done].
  apply for_each_written.
Qed.

Lemma on_server_message_run message session languages self :
  LanguageServerSpec.languages (LanguageServerSession.spec session) = Some languages →
  on_server_message json_loads message session self =
  match wait_for_listeners json_loads server message languages self with
  | (Ok _, self') =>
      (Ok tt, set_calls (calls self'
                         ++ sent message
                              (iter_handlers (LanguageServerSession.handlers session)))
                        self')
  | (Raise e, self') => (Raise e, self')
  end.
Proof.
  intros Hl.
  unfold on_server_message, mbind, M_mbind, M_bind, get, lift,
    LanguageServerSpec.getitem_languages. rewrite Hl. cbv beta iota.
  destruct (wait_for_listeners _ _ _ _ _) as [[[]|e] self']; [|done].
  apply for_each_sent.
Qed.

Lemma listened_is_Listened scope message_dict languages wanted :
  forallb is_Listened (listened scope message_dict languages wanted) = true.
Proof. by induction wanted. Qed.



(** What [wait_for_listeners] leaves behind: calls to listeners only. *)
Lemma wait_for_listeners_heard scope message languages self :
  ∃ heard,
    (wait_for_listeners json_loads scope message languages self).2
    = set_calls (calls self ++ heard) self
    ∧ forallb is_Listened heard = true.
Proof.
  rewrite wait_for_listeners_run.
  destruct (_ ++ _) as [|lst listeners].
  { exists []. by rewrite app_nil_r, set_calls_id. }
  destruct (json_loads message) as [message_dict|e].
  2: { exists []. by rewrite app_nil_r, set_calls_id. }
  destruct (wanted_listeners _ _ _) as [wanted|e].
  2: { exists []. by rewrite app_nil_r, set_calls_id. }
  eexists. split; [reflexivity|apply listened_is_Listened].
Qed.

(** C1, as the code has it. For a message that decodes and listeners
    whose [wants] returns, every listener that wants the message is awaited,
    whether or not another one raises; the first exception raised is
    propagated to the caller of [wait_for_listeners], and from there out of
    [on_client_message] and [on_server_message], which then forward the
    message to no session and no handler. *)
Theorem listener_exception_propagates self message message_dict :
  json_loads message = Ok message_dict →
  (∀ scope languages wanted,
     wanted_listeners message_dict languages
       (HasListeners.getitem (_listeners self) scope
        ++ HasListeners.getitem (_listeners self) all) = Ok wanted →
     wait_for_listeners json_loads scope message languages self
     = (gathered (first_raised scope message_dict languages wanted),
        set_calls (calls self ++ listened scope message_dict languages wanted) self)
     ∧ ∀ lst, lst ∈ wanted →
         Listened (Callback.ident (MessageListener.listener lst))
                  scope message_dict languages
         ∈ calls (wait_for_listeners json_loads scope message languages self).2)
  ∧ (∀ handler wanted e,
       wanted_listeners message_dict [Handler.language handler]
         (HasListeners.getitem (_listeners self) client
          ++ HasListeners.getitem (_listeners self) all) = Ok wanted →
       first_raised client message_dict [Handler.language handler] wanted = Some e →
       on_client_message json_loads message handler self
       = (Raise e,
          set_calls (calls self
                     ++ listened client message_dict [Handler.language handler] wanted)
                    self))
  ∧ (∀ session languages wanted e,
       LanguageServerSpec.languages (LanguageServerSession.spec session)
         = Some languages →
       wanted_listeners message_dict languages
         (HasListeners.getitem (_listeners self) server
          ++ HasListeners.getitem (_listeners self) all) = Ok wanted →
       first_raised server message_dict languages wanted = Some e →
       on_server_message json_loads message session self
       = (Raise e,
          set_calls (calls self ++ listened server message_dict languages wanted)
                    self)).
Proof.
  intros Hjson.
  assert (∀ scope languages wanted,
    wanted_listeners message_dict languages
      (HasListeners.getitem (_listeners self) scope
       ++ HasListeners.getitem (_listeners self) all) = Ok wanted →
    wait_for_listeners json_loads scope message languages self
    = (gathered (first_raised scope message_dict languages wanted),
       set_calls (calls self ++ listened scope message_dict languages wanted) self))
    as Hwait.
  { intros scope languages wanted Hwanted. rewrite wait_for_listeners_run.
    destruct (_ ++ _) as [|lst listeners].
    - injection Hwanted as <-. cbn. by rewrite app_nil_r, set_calls_id.
    - by rewrite Hjson, Hwanted. }
  split; [|split].
  - intros scope languages wanted Hwanted. split; [by apply Hwait|].
    intros lst Hin. rewrite (Hwait _ _ _ Hwanted). cbn [snd calls set_calls].
    apply elem_of_app. right. unfold listened.
    apply list_elem_of_fmap. by exists lst.
  - intros handler wanted e Hwanted Hraised.
    by rewrite on_client_message_run, (Hwait _ _ _ Hwanted), Hraised.
  - intros session languages wanted e Hl Hwanted Hraised.
    by rewrite (on_server_message_run _ _ _ _ Hl), (Hwait _ _ _ Hwanted), Hraised.
Qed.

(** C6, as the code has it. A payload that does not decode is decoded only
    when some listener is registered for the scope or for every scope: the
    decoder's exception then leaves [wait_for_listeners] and the message
    handler, no listener is called and nothing is forwarded; with no listener
    registered the payload is not decoded and is forwarded to every
    destination. *)
Theorem undecodable_message self message e :
  json_loads message = Raise e →
  (∀ handler,
     on_client_message json_loads message handler self =
     match HasListeners.getitem (_listeners self) client
           ++ HasListeners.getitem (_listeners self) all with
     | [] =>
         (Ok tt,
          set_calls (calls self
                     ++ written message (sessions_for_handler self handler)) self)
     | _ => (Raise e, self)
     end)
  ∧ (∀ session languages,
       LanguageServerSpec.languages (LanguageServerSession.spec session)
         = Some languages →
       on_server_message json_loads message session self =
       match HasListeners.getitem (_listeners self) server
             ++ HasListeners.getitem (_listeners self) all with
       | [] =>
           (Ok tt,
            set_calls (calls self
                       ++ sent message
                            (iter_handlers (LanguageServerSession.handlers session)))
                      self)
       | _ => (Raise e, self)
       end).
Proof.
  intros Hjson. split.
  - intros handler. rewrite on_client_message_run, wait_for_listeners_run.
    destruct (_ ++ _) as [|lst listeners]; [done|]. by rewrite Hjson.
  - intros session languages Hl.
    rewrite (on_server_message_run _ _ _ _ Hl), wait_for_listeners_run.
    destruct (_ ++ _) as [|lst listeners]; [done|]. by rewrite Hjson.
Qed.

End dispatch_facts.

Lemma python_handler_subscribed listeners :
  (sessions_for_handler (python_manager listeners) python_handler).*1
  = [["python"]].
Proof.
  unfold sessions_for_handler, python_manager, dict_items.
  cbn [sessions List.filter snd]. unfold handler_in.
  cbn [iter_handlers LanguageServerSession.handlers].
  rewrite bool_decide_eq_true_2; [done|].
  by apply elem_of_elements, elem_of_singleton.
Qed.

(** C1, as stated, fails: with a listener that raises and one that returns,
    both registered for client messages, both are called, the exception
    leaves [on_client_message], and the message is not written to the
    session the handler is subscribed to. *)
Lemma listener_exception_stops_delivery :
  on_client_message json_lite.loads "{}" python_handler
    (python_manager two_listeners)
  = (Raise (Exception "boom"),
     set_calls [Listened 2 client (JDict []) ["python"];
                Listened 1 client (JDict []) ["python"]]
               (python_manager two_listeners))
  ∧ (sessions_for_handler (python_manager two_listeners) python_handler).*1
    = [["python"]].
Proof.
  split.
  - rewrite on_client_message_run, wait_for_listeners_run. reflexivity.
  - apply python_handler_subscribed.
Qed.

(** The same dispatch, from the theorem. *)
Lemma listener_exception_propagates_witness :
  on_client_message json_lite.loads "{}" python_handler
    (python_manager two_listeners)
  = (Raise (Exception "boom"),
     set_calls [Listened 2 client (JDict []) ["python"];
                Listened 1 client (JDict []) ["python"]]
               (python_manager two_listeners)).
Proof.
  apply (proj1 (proj2 (listener_exception_propagates json_lite.loads
                         (python_manager two_listeners) "{}" (JDict []) eq_refl))
           python_handler
           [MessageListener.mk failing_callback None None;
            MessageListener.mk quiet_callback None None]
           (Exception "boom")); reflexivity.
Defined.

(** C6, as stated, fails: with a listener registered, a payload that is not
    JSON makes [on_client_message] raise, and nothing is written to the
    session the handler is subscribed to. *)
Lemma undecodable_message_not_forwarded :
  on_client_message json_lite.loads "Content-Length" python_handler
    (python_manager one_listener)
  = (Raise JSONDecodeError, python_manager one_listener)
  ∧ (sessions_for_handler (python_manager one_listener) python_handler).*1
    = [["python"]].
Proof.
  split.
  - rewrite on_client_message_run, wait_for_listeners_run.
    by vm_compute (json_lite.loads _).
  - apply python_handler_subscribed.
Qed.

(** The same dispatch, from the theorem. *)
Lemma undecodable_message_witness :
  on_client_message json_lite.loads "Content-Length" python_handler
    (python_manager one_listener)
  = (Raise JSONDecodeError, python_manager one_listener).
Proof.
  apply (proj1 (undecodable_message json_lite.loads (python_manager one_listener)
                  "Content-Length" JSONDecodeError ltac:(by vm_compute))
           python_handler).
Defined.
(** * Further properties *)

(** ** The listener table *)

Lemma unregister_getitem listener tbl scope :
  HasListeners.getitem (HasListeners.unregister_message_listener listener tbl) scope
  = filter (λ lst, Callback.ident (MessageListener.listener lst)
                   ≠ Callback.ident listener)
           (HasListeners.getitem tbl scope).
Proof. by destruct tbl, scope. Qed.

Lemma filter_all {A} (P : A → Prop) `{∀ x, Decision (P x)} (l : list A) :
  Forall P l → filter P l = l.
Proof.
  induction 1 as [|x l Hx _ IH]; [done|].
  by rewrite filter_cons_True, IH.
Qed.

(** X1. [unregister_message_listener] takes the callback out of the lists of
    all three scopes, keeps every listener of another callback in its place,
    and does nothing more when applied again. *)
Theorem unregister_removes_everywhere listener tbl :
  (∀ scope lst,
     lst ∈ HasListeners.getitem
             (HasListeners.unregister_message_listener listener tbl) scope
     ↔ lst ∈ HasListeners.getitem tbl scope
       ∧ Callback.ident (MessageListener.listener lst) ≠ Callback.ident listener)
  ∧ (∀ scope,
       HasListeners.getitem (HasListeners.unregister_message_listener listener tbl) scope
       `sublist_of` HasListeners.getitem tbl scope)
  ∧ HasListeners.unregister_message_listener listener
      (HasListeners.unregister_message_listener listener tbl)
    = HasListeners.unregister_message_listener listener tbl.
Proof.
  split; [|split].
  - intros scope lst. rewrite unregister_getitem, list_elem_of_filter. tauto.
  - intros scope. rewrite unregister_getitem. apply sublist_filter.
  - destruct tbl as [c s a]. unfold HasListeners.unregister_message_listener.
    cbn. f_equal; apply filter_all, Forall_forall;
      by intros lst [? _]%list_elem_of_filter.
Qed.

(** X2. Registering a callback that the table does not hold and then
    unregistering it gives the table back, whatever the scope and patterns. *)
Theorem register_unregister scope language method listener tbl :
  (∀ scope' lst,
     lst ∈ HasListeners.getitem tbl scope' →
     Callback.ident (MessageListener.listener lst) ≠ Callback.ident listener) →
  HasListeners.unregister_message_listener listener
    (HasListeners.register_message_listener scope language method listener tbl)
  = tbl.
Proof.
  intros Hfresh.
  assert (∀ scope', filter (λ lst, Callback.ident (MessageListener.listener lst)
                                   ≠ Callback.ident listener)
                           (HasListeners.getitem tbl scope')
                    = HasListeners.getitem tbl scope') as Hkeep.
  { intros scope'. apply filter_all, Forall_forall. intros lst. apply Hfresh. }
  pose proof (Hkeep client) as Hc. pose proof (Hkeep server) as Hs.
  pose proof (Hkeep all) as Ha.
  destruct tbl as [c s a]. cbn in Hc, Hs, Ha.
  unfold HasListeners.unregister_message_listener,
    HasListeners.register_message_listener.
  destruct scope; cbn; rewrite ?filter_app, ?Hc, ?Hs, ?Ha;
    rewrite filter_cons_False, filter_nil, ?app_nil_r by (cbn; tauto); done.
Qed.

Lemma register_unregister_witness :
  HasListeners.unregister_message_listener quiet_callback
    (HasListeners.register_message_listener server None None quiet_callback
       (HasListeners.mk [MessageListener.mk failing_callback None None] [] []))
  = HasListeners.mk [MessageListener.mk failing_callback None None] [] [].
Proof.
  apply (register_unregister server None None quiet_callback).
  intros scope' lst Hin. destruct scope'; cbn in Hin.
  - apply list_elem_of_singleton in Hin as ->. cbn. lia.
  - by apply elem_of_nil in Hin.
  - by apply elem_of_nil in Hin.
Defined.

(** ** Listener predicates, continued *)

(** X3. For a listener with a method pattern, [wants] raises [TypeError]
    when the decoded message is not an object (a list, a string, a number,
    true, false or null), and when its [method] is not a string. *)
Theorem wants_type_errors self p languages :
  MessageListener.method self = Some p →
  (∀ message,
     (∀ kvs, message ≠ JDict kvs) →
     ∃ what, MessageListener.wants self message languages = Raise (TypeError what))
  ∧ (∀ kvs value,
       dict_get "method" kvs = Some value →
       (∀ m, value ≠ JStr m) →
       ∃ what, MessageListener.wants self (JDict kvs) languages
               = Raise (TypeError what)).
Proof.
  intros Hm. unfold MessageListener.wants. rewrite Hm. split.
  - intros message Hnot. destruct message; cbn; try by eexists.
    by destruct (Hnot kvs).
  - intros kvs value Hget Hnot. cbn. rewrite Hget. cbn.
    destruct value; cbn; try by eexists. by destruct (Hnot s).
Qed.

(** A batch of requests, decoded: a list. *)
Lemma wants_type_errors_witness :
  ∃ what,
    MessageListener.wants
      (MessageListener.mk quiet_callback None (Some (re.literal "initialize")))
      (JList [JDict [("method", JStr "initialize")]]) ["python"]
    = Raise (TypeError what).
Proof.
  apply (proj1 (wants_type_errors
                  (MessageListener.mk quiet_callback None
                     (Some (re.literal "initialize")))
                  (re.literal "initialize") ["python"] eq_refl)).
  done.
Defined.

Section listener_init_facts.
Variable re_compile : string → re.Pattern.

(** X4. A listener made with an empty language source has no language
    pattern, like one made with [None]: without method source it wants every
    message, even for an empty list of languages; one made with a non-empty
    language source wants no message for an empty list of languages. *)
Theorem empty_source_is_no_filter listener message :
  MessageListener_init re_compile listener (Some "") None
    = MessageListener_init re_compile listener None None
  ∧ (∀ languages,
       MessageListener.wants
         (MessageListener_init re_compile listener (Some "") None) message languages
       = Ok true)
  ∧ (∀ c source,
       MessageListener.wants
         (MessageListener_init re_compile listener (Some (String c source)) None)
         message []
       = Ok false).
Proof. done. Qed.
End listener_init_facts.
(** ** Dispatch, continued *)

Lemma wanted_listeners_app message_dict languages listeners1 listeners2 :
  wanted_listeners message_dict languages (listeners1 ++ listeners2) =
  result_bind (wanted_listeners message_dict languages listeners1) (λ wanted1,
  result_bind (wanted_listeners message_dict languages listeners2) (λ wanted2,
  Ok (wanted1 ++ wanted2))).
Proof.
  induction listeners1 as [|lst listeners1 IH]; cbn.
  - by destruct (wanted_listeners _ _ listeners2).
  - destruct (MessageListener.wants lst message_dict languages) as [w|e]; [|done].
    cbn. rewrite IH.
    destruct (wanted_listeners _ _ listeners1) as [wanted1|e]; [|done]. cbn.
    destruct (wanted_listeners _ _ listeners2) as [wanted2|e]; [|done]. cbn.
    by destruct w.
Qed.

Lemma wanted_listeners_raises message_dict languages listeners lst e :
  lst ∈ listeners →
  MessageListener.wants lst message_dict languages = Raise e →
  ∃ e', wanted_listeners message_dict languages listeners = Raise e'.
Proof.
  intros Hin Hraise. induction listeners as [|lst' listeners IH].
  { by apply elem_of_nil in Hin. }
  cbn. destruct (MessageListener.wants lst' message_dict languages) as [w|e'] eqn:Hw;
    [|by eexists].
  apply elem_of_cons in Hin as [->|Hin]; [congruence|].
  destruct (IH Hin) as [e'' ->]. by eexists.
Qed.

Lemma listened_app scope message_dict languages wanted1 wanted2 :
  listened scope message_dict languages (wanted1 ++ wanted2)
  = listened scope message_dict languages wanted1
    ++ listened scope message_dict languages wanted2.
Proof. unfold listened. apply fmap_app. Qed.

Section dispatch_more.
Variable json_loads : string → result json.

(** X5. When [wants] raises for any one listener of the scope or of all,
    [wait_for_listeners] raises before any listener is called, and
    [on_client_message] then raises without writing to any session: the
    manager is left as it was. *)
Theorem wants_exception_stops_dispatch self scope message message_dict languages lst e :
  json_loads message = Ok message_dict →
  lst ∈ HasListeners.getitem (_listeners self) scope
        ++ HasListeners.getitem (_listeners self) all →
  MessageListener.wants lst message_dict languages = Raise e →
  ∃ e',
    wait_for_listeners json_loads scope message languages self = (Raise e', self)
    ∧ (∀ handler,
         scope = client → languages = [Handler.language handler] →
         on_client_message json_loads message handler self = (Raise e', self)).
Proof.
  intros Hjson Hin Hraise.
  destruct (wanted_listeners_raises _ _ _ _ _ Hin Hraise) as [e' Hwanted].
  assert (wait_for_listeners json_loads scope message languages self
          = (Raise e', self)) as Hwait.
  { rewrite wait_for_listeners_run.
    destruct (_ ++ _) as [|lst' listeners]; [by apply elem_of_nil in Hin|].
    by rewrite Hjson, Hwanted. }
  exists e'. split; [done|].
  intros handler -> ->. by rewrite on_client_message_run, Hwait.
Qed.

(** X6. A listener registered for all without patterns comes last among
    the listeners of a client or server message that decodes.  When [wants]
    raises for none of the listeners that were there before it, it is
    awaited after those that want the message, whose calls are as they were
    without it; when [wants] raises for one of them, the dispatch raises
    that exception and the new listener is not called, no more than any
    other. *)
Theorem listener_for_all_is_awaited self listener scope message message_dict
    languages :
  scope ≠ all →
  json_loads message = Ok message_dict →
  wait_for_listeners json_loads scope message languages
    (set_listeners
       (HasListeners.register_message_listener all None None listener
          (_listeners self)) self)
  = match wanted_listeners message_dict languages
            (HasListeners.getitem (_listeners self) scope
             ++ HasListeners.getitem (_listeners self) all) with
    | Ok wanted =>
        (gathered
           (first_raised scope message_dict languages
              (wanted ++ [MessageListener.mk listener None None])),
         set_calls
           (calls self ++ listened scope message_dict languages wanted
            ++ [Listened (Callback.ident listener) scope message_dict languages])
           (set_listeners
              (HasListeners.register_message_listener all None None listener
                 (_listeners self)) self))
    | Raise e =>
        (Raise e,
         set_listeners
           (HasListeners.register_message_listener all None None listener
              (_listeners self)) self)
    end.
Proof.
  intros Hscope Hjson. rewrite wait_for_listeners_run.
  cbn [_listeners set_listeners].
  assert (HasListeners.getitem
            (HasListeners.register_message_listener all None None listener
               (_listeners self)) scope
          ++ HasListeners.getitem
               (HasListeners.register_message_listener all None None listener
                  (_listeners self)) all
          = (HasListeners.getitem (_listeners self) scope
             ++ HasListeners.getitem (_listeners self) all)
            ++ [MessageListener.mk listener None None]) as ->.
  { destruct (_listeners self) as [c s a]. destruct scope; try done; cbn;
      by rewrite app_assoc. }
  destruct (_ ++ [_]) as [|lst listeners] eqn:Hall.
  { by apply app_eq_nil in Hall as [_ ?]. }
  rewrite <-Hall, Hjson, wanted_listeners_app.
  destruct (wanted_listeners message_dict languages
              (HasListeners.getitem (_listeners self) scope
               ++ HasListeners.getitem (_listeners self) all))
    as [wanted|e]; [|done].
  cbn. by rewrite listened_app.
Qed.

(** X7. For the scope all, the listeners registered for all are looked at
    twice: each one that wants the message is awaited twice. *)
Theorem scope_all_awaits_twice self message message_dict languages wanted :
  json_loads message = Ok message_dict →
  wanted_listeners message_dict languages
    (HasListeners.getitem (_listeners self) all) = Ok wanted →
  wait_for_listeners json_loads all message languages self
  = (gathered (first_raised all message_dict languages (wanted ++ wanted)),
     set_calls
       (calls self ++ listened all message_dict languages wanted
        ++ listened all message_dict languages wanted) self).
Proof.
  intros Hjson Hwanted. rewrite wait_for_listeners_run.
  destruct (_ ++ _) as [|lst listeners] eqn:Hall.
  - apply app_eq_nil in Hall as [Hnil _]. rewrite Hnil in Hwanted.
    injection Hwanted as <-. cbn. by rewrite app_nil_r, set_calls_id.
  - rewrite <-Hall, Hjson, wanted_listeners_app, Hwanted. cbn.
    by rewrite listened_app.
Qed.
End dispatch_more.

(** A listener for initialize is offered a response. *)
Lemma wants_exception_stops_dispatch_witness :
  ∃ e',
    on_client_message json_lite.loads "{}" python_handler
      (python_manager
         (HasListeners.mk
            [MessageListener.mk quiet_callback None None;
             MessageListener.mk quiet_callback None (Some (re.literal "initialize"))]
            [] []))
    = (Raise e',
       python_manager
         (HasListeners.mk
            [MessageListener.mk quiet_callback None None;
             MessageListener.mk quiet_callback None (Some (re.literal "initialize"))]
            [] [])).
Proof.
  destruct (wants_exception_stops_dispatch json_lite.loads
              (python_manager
                 (HasListeners.mk
                    [MessageListener.mk quiet_callback None None;
                     MessageListener.mk quiet_callback None
                       (Some (re.literal "initialize"))]
                    [] []))
              client "{}" (JDict []) ["python"]
              (MessageListener.mk quiet_callback None (Some (re.literal "initialize")))
              (KeyError "method"))
    as (e' & _ & Hclient).
  - reflexivity.
  - cbn. apply list_elem_of_further, list_elem_of_here.
  - reflexivity.
  - exists e'. by apply Hclient.
Defined.

(** A server message that decodes, with a listener for server messages
    registered before: both are awaited, the new one last. *)
Lemma listener_for_all_is_awaited_witness :
  wait_for_listeners json_lite.loads server "{}" ["python"]
    (set_listeners
       (HasListeners.register_message_listener all None None failing_callback
          server_listener)
       (python_manager server_listener))
  = (Raise (Exception "boom"),
     set_calls
       [Listened 1 server (JDict []) ["python"];
        Listened 2 server (JDict []) ["python"]]
       (set_listeners
          (HasListeners.register_message_listener all None None failing_callback
             server_listener)
          (python_manager server_listener))).
Proof.
  exact (listener_for_all_is_awaited json_lite.loads
           (python_manager server_listener) failing_callback server "{}"
           (JDict []) ["python"] ltac:(done) eq_refl).
Defined.

Lemma scope_all_awaits_twice_witness :
  calls (wait_for_listeners json_lite.loads all "{}" ["python"]
           (python_manager one_listener)).2
  = [Listened 1 all (JDict []) ["python"]; Listened 1 all (JDict []) ["python"]].
Proof.
  exact (f_equal (λ r, calls r.2)
           (scope_all_awaits_twice json_lite.loads (python_manager one_listener)
              "{}" (JDict []) ["python"]
              [MessageListener.mk quiet_callback None None] eq_refl eq_refl)).
Defined.
(** ** Detection and resolution, continued *)

Lemma dict_set_fresh {K V} `{EqDecision K} (k : K) (v : V) (d : dict K V) :
  k ∉ dict_keys d → dict_set k v d = d ++ [(k, v)].
Proof.
  unfold dict_keys. induction d as [|[k0 v0] d IH]; [done|].
  rewrite fmap_cons, not_elem_of_cons. cbn [fst]. intros [Hne Hnin].
  cbn [dict_set]. rewrite decide_False by done. by rewrite IH.
Qed.

Lemma dict_update_fresh {K V} `{EqDecision K} (d items : dict K V) :
  NoDup (dict_keys (d ++ items)) → dict_update d items = d ++ items.
Proof.
  unfold dict_update, dict_keys. revert d.
  induction items as [|[k v] items IH]; intros d Hnodup; cbn [foldl].
  - by rewrite app_nil_r.
  - cbn [fst snd]. rewrite dict_set_fresh.
    + rewrite IH; rewrite <-app_assoc; done.
    + rewrite fmap_app, fmap_cons in Hnodup. cbn [fst] in Hnodup.
      apply NoDup_app in Hnodup as (_ & Hdisj & _).
      intros Hin. apply (Hdisj k Hin), list_elem_of_here.
Qed.

Lemma filter_filter {A} (f : A → bool) (l : list A) :
  List.filter f (List.filter f l) = List.filter f l.
Proof.
  induction l as [|x l IH]; [done|]. cbn.
  destruct (f x) eqn:Hx; [|done]. cbn. by rewrite Hx, IH.
Qed.

Section detection_facts.
Variable schema_valid : dict string LanguageServerSpec.t → bool.

(** X8. Detection skips what fails: when listing the entry points raises,
    nothing is detected; an entry point whose [load] raises, whose spec
    finder raises, or whose specs do not validate contributes nothing and
    leaves the contributions of the entry points around it as they are. *)
Theorem autodetect_skips_failures self :
  (∀ e, _autodetect_language_servers (Raise e) schema_valid self = [])
  ∧ (∀ before ep after,
       match EntryPoint.load ep with
       | Raise _ => True
       | Ok spec_finder =>
           match spec_finder self with
           | Raise _ => True
           | Ok specs => schema_valid specs = false
           end
       end →
       _autodetect_language_servers (Ok (before ++ ep :: after)) schema_valid self
       = _autodetect_language_servers (Ok (before ++ after)) schema_valid self)
  ∧ (∀ before ep spec_finder specs after,
       EntryPoint.load ep = Ok spec_finder →
       spec_finder self = Ok specs →
       schema_valid specs = true →
       _autodetect_language_servers (Ok (before ++ ep :: after)) schema_valid self
       = _autodetect_language_servers (Ok before) schema_valid self
         ++ dict_items specs
         ++ _autodetect_language_servers (Ok after) schema_valid self).
Proof.
  unfold _autodetect_language_servers. split; [done|]. split.
  - intros before ep after Hfails.
    rewrite !flat_map_app. cbn [flat_map]. f_equal.
    destruct (EntryPoint.load ep) as [spec_finder|]; [|done].
    destruct (spec_finder self) as [specs|]; [|done]. by rewrite Hfails.
  - intros before ep spec_finder specs after Hload Hfinder Hvalid.
    rewrite flat_map_app. cbn [flat_map]. by rewrite Hload, Hfinder, Hvalid.
Qed.

(** X9. With detection off and a configuration without repeated keys,
    [init_language_servers] keeps exactly the configured specs with
    non-empty [argv] and [languages], in their configured order, and
    running it again changes nothing. *)
Theorem resolution_without_detection iter_entry_points self :
  autodetect self = false →
  NoDup (dict_keys (language_servers self)) →
  init_language_servers iter_entry_points schema_valid self
  = (Ok tt,
     set_language_servers
       (List.filter (λ kv, LanguageServerSpec.usable kv.2) (language_servers self))
       self)
  ∧ init_language_servers iter_entry_points schema_valid
      (init_language_servers iter_entry_points schema_valid self).2
    = init_language_servers iter_entry_points schema_valid self.
Proof.
  intros Hoff Hnodup.
  assert (∀ self',
    autodetect self' = false → NoDup (dict_keys (language_servers self')) →
    init_language_servers iter_entry_points schema_valid self'
    = (Ok tt,
       set_language_servers
         (List.filter (λ kv, LanguageServerSpec.usable kv.2) (language_servers self'))
         self')) as Hrun.
  { intros self' Hoff' Hnodup'.
    unfold init_language_servers, mbind, M_mbind, M_bind, get, modify.
    cbv beta iota zeta. rewrite Hoff'. unfold dict_items.
    by rewrite dict_update_fresh. }
  split; [by apply Hrun|].
  rewrite (Hrun self Hoff Hnodup). cbn [snd].
  rewrite Hrun; [|done|by apply dict_keys_filter_NoDup].
  cbn [language_servers set_language_servers]. by rewrite filter_filter.
Qed.

(** X10. With detection on, a key that the configuration turns off with an
    empty spec is absent after [init_language_servers], and present again,
    with the detected spec, after a second run that detects the same specs:
    the resolved configuration no longer holds the empty spec that turned
    the key off. *)
Theorem opt_out_lost_on_second_run iter_entry_points self key spec detected :
  autodetect self = true →
  NoDup (dict_keys (language_servers self)) →
  dict_get key (language_servers self) = Some spec →
  LanguageServerSpec.usable spec = false →
  assoc_last key (_autodetect_language_servers iter_entry_points schema_valid self)
    = Some detected →
  LanguageServerSpec.usable detected = true →
  _autodetect_language_servers iter_entry_points schema_valid
    (init_language_servers iter_entry_points schema_valid self).2
  = _autodetect_language_servers iter_entry_points schema_valid self →
  dict_get key
    (language_servers (init_language_servers iter_entry_points schema_valid self).2)
  = None
  ∧ dict_get key
      (language_servers
         (init_language_servers iter_entry_points schema_valid
            (init_language_servers iter_entry_points schema_valid self).2).2)
    = Some detected.
Proof.
  intros Hon Hnodup Hspec Hoff Hdetected Husable Hsame.
  assert (∀ self',
    autodetect self' = true → NoDup (dict_keys (language_servers self')) →
    ∀ k,
      dict_get k (language_servers
                    (init_language_servers iter_entry_points schema_valid self').2)
      = match dict_get k (language_servers self') with
        | Some s => if LanguageServerSpec.usable s then Some s else None
        | None =>
            match assoc_last k (_autodetect_language_servers iter_entry_points
                                  schema_valid self') with
            | Some s => if LanguageServerSpec.usable s then Some s else None
            | None => None
            end
        end) as Hget.
  { intros self' Hon' Hnodup' k.
    unfold init_language_servers, mbind, M_mbind, M_bind, get, modify.
    cbv beta iota zeta. rewrite Hon'. cbn [snd language_servers set_language_servers].
    unfold dict_items. rewrite dict_get_filter.
    2: { apply dict_update_NoDup, dict_update_NoDup, NoDup_nil_2. }
    rewrite !dict_get_update, assoc_last_NoDup by done. cbn [dict_get].
    destruct (dict_get k (language_servers self')); [done|].
    by destruct (assoc_last k _). }
  assert (dict_get key
            (language_servers
               (init_language_servers iter_entry_points schema_valid self).2)
          = None) as Hfirst.
  { by rewrite Hget, Hspec, Hoff. }
  split; [done|]. rewrite Hget.
  - by rewrite Hfirst, Hsame, Hdetected, Husable.
  - done.
  - unfold init_language_servers, mbind, M_mbind, M_bind, get, modify.
    cbv beta iota zeta. cbn [snd language_servers set_language_servers].
    apply dict_keys_filter_NoDup, dict_update_NoDup.
    destruct (autodetect self); [|apply NoDup_nil_2].
    apply dict_update_NoDup, NoDup_nil_2.
Qed.
End detection_facts.

(** A working entry point between two that fail. *)
Lemma autodetect_skips_failures_witness :
  _autodetect_language_servers
    (Ok [broken_entry_point; py_entry_point; failing_entry_point])
    (λ _, true) opted_out_manager
  = [("py", python_spec)].
Proof.
  etrans.
  { exact (proj1 (proj2 (autodetect_skips_failures (λ _, true) opted_out_manager))
             [] broken_entry_point [py_entry_point; failing_entry_point] I). }
  etrans.
  { exact (proj1 (proj2 (autodetect_skips_failures (λ _, true) opted_out_manager))
             [py_entry_point] failing_entry_point [] I). }
  reflexivity.
Defined.

Lemma resolution_without_detection_witness :
  language_servers
    (init_language_servers (Ok [py_entry_point]) (λ _, true) configured_manager).2
  = [("web", web_spec)].
Proof.
  destruct (resolution_without_detection (λ _, true) (Ok [py_entry_point])
              configured_manager) as [Hrun _].
  - reflexivity.
  - apply (NoDup_cons_2 "off" ["web"]); [|apply NoDup_singleton].
    by intros ?%list_elem_of_singleton.
  - by rewrite Hrun.
Defined.

(** The key py, turned off by the configuration, comes back. *)
Lemma opt_out_lost_on_second_run_witness :
  dict_get "py"
    (language_servers
       (init_language_servers (Ok [py_entry_point]) (λ _, true)
          (init_language_servers (Ok [py_entry_point]) (λ _, true)
             opted_out_manager).2).2)
  = Some python_spec.
Proof.
  apply (opt_out_lost_on_second_run (λ _, true) (Ok [py_entry_point])
           opted_out_manager "py" empty_spec python_spec);
    try reflexivity.
  apply NoDup_singleton.
Defined.

(** ** Sessions, continued *)

Lemma init_sessions_loop_raises specs table spec :
  spec ∈ specs →
  LanguageServerSpec.languages spec = None →
  init_sessions_loop specs table = Raise (KeyError "languages").
Proof.
  intros Hin Hnone. revert table.
  induction specs as [|spec' specs IH]; intros table.
  { by apply elem_of_nil in Hin. }
  cbn [init_sessions_loop]. unfold LanguageServerSpec.getitem_languages.
  destruct (LanguageServerSpec.languages spec') as [languages|] eqn:Hl; [|done].
  cbn [result_bind]. apply IH.
  apply elem_of_cons in Hin as [->|Hin]; [congruence|done].
Qed.

(** X11. When some spec of [language_servers] has no [languages],
    [init_sessions] raises [KeyError] and the session table is the one from
    before, whatever the other specs are: no session of the new table is
    kept. *)
Theorem init_sessions_missing_languages self spec :
  spec ∈ dict_values (language_servers self) →
  LanguageServerSpec.languages spec = None →
  init_sessions self = (Raise (KeyError "languages"), self).
Proof.
  intros Hin Hnone.
  by rewrite init_sessions_run, (init_sessions_loop_raises _ _ spec Hin Hnone).
Qed.

Lemma init_sessions_missing_languages_witness :
  init_sessions headless_manager = (Raise (KeyError "languages"), headless_manager).
Proof.
  apply (init_sessions_missing_languages headless_manager headless_spec).
  - apply list_elem_of_further, list_elem_of_here.
  - reflexivity.
Defined.

Lemma dict_set_elem {K V} `{EqDecision K} (k k' : K) (v v' : V) (d : dict K V) :
  (k, v) ∈ dict_set k' v' d → (k, v) = (k', v') ∨ (k, v) ∈ d.
Proof.
  induction d as [|[k0 v0] d IH]; cbn [dict_set].
  - intros ->%list_elem_of_singleton. by left.
  - destruct (decide (k' = k0)) as [->|Hne].
    + intros [->|Hin]%elem_of_cons; [by left|right; by apply list_elem_of_further].
    + intros [->|Hin]%elem_of_cons; [right; apply list_elem_of_here|].
      destruct (IH Hin) as [?|?]; [by left|right; by apply list_elem_of_further].
Qed.

Lemma dict_update_elem {K V} `{EqDecision K} (k : K) (v : V) (d items : dict K V) :
  (k, v) ∈ dict_update d items → (k, v) ∈ d ∨ (k, v) ∈ items.
Proof.
  unfold dict_update. revert d.
  induction items as [|[k' v'] items IH]; intros d; cbn [foldl]; [by left|].
  intros [Hin|Hin]%IH; [|right; by apply list_elem_of_further].
  apply dict_set_elem in Hin as [->|Hin]; [right; apply list_elem_of_here|by left].
Qed.

Section initialize_more.
Variable iter_entry_points : result (list EntryPoint.t).
Variable schema_valid : dict string LanguageServerSpec.t → bool.

(** X12. After [initialize], which returns, the session table has no
    repeated key, and every session in it is built from a resolved spec with
    non-empty [argv] and [languages] and stands under the sorted tuple of
    that spec's languages: the key is not empty, and a language is in the key
    exactly when it is among the languages of the session's spec. *)
Theorem initialize_sessions self :
  ∃ table,
    initialize iter_entry_points schema_valid self
    = (Ok tt,
       set_sessions table
         (init_language_servers iter_entry_points schema_valid self).2)
    ∧ NoDup (dict_keys table)
    ∧ ∀ key session,
        (key, session) ∈ table →
        ∃ languages,
          LanguageServerSpec.languages (LanguageServerSession.spec session)
            = Some languages
          ∧ LanguageServerSpec.usable (LanguageServerSession.spec session) = true
          ∧ LanguageServerSession.spec session
            ∈ dict_values
                (language_servers
                   (init_language_servers iter_entry_points schema_valid self).2)
          ∧ key = sorted languages
          ∧ key ≠ []
          ∧ ∀ language, language ∈ key ↔ language ∈ languages.
Proof.
  destruct (init_language_servers iter_entry_points schema_valid self)
    as [r self'] eqn:Hresolve.
  assert (Forall (λ spec, LanguageServerSpec.usable spec = true)
                 (dict_values (language_servers self'))) as Husable.
  { unfold init_language_servers, mbind, M_mbind, M_bind, get, modify in Hresolve.
    injection Hresolve as <- <-.
    cbn [language_servers set_language_servers]. unfold dict_values.
    apply Forall_forall. intros spec ([key spec'] & -> & Hin)%list_elem_of_fmap.
    by apply list_elem_of_In, filter_In in Hin as [_ Hspec]. }
  assert (r = Ok tt) as ->.
  { unfold init_language_servers, mbind, M_mbind, M_bind, get, modify in Hresolve.
    by injection Hresolve as <- _. }
  assert (Forall (λ spec, is_Some (LanguageServerSpec.languages spec))
                 (dict_values (language_servers self'))) as Hspecs.
  { eapply Forall_impl; [exact Husable|]. intros spec [_ Hl]%andb_true_iff.
    unfold LanguageServerSpec.truthy in Hl.
    destruct (LanguageServerSpec.languages spec); [by eexists|done]. }
  eexists. split; [|split].
  - unfold initialize, mbind, M_mbind, M_bind. rewrite Hresolve.
    by rewrite init_sessions_run, (init_sessions_loop_resolved _ _ Hspecs).
  - apply dict_update_NoDup, NoDup_nil_2.
  - intros key session [Hin|Hin]%dict_update_elem; [by apply elem_of_nil in Hin|].
    apply list_elem_of_fmap in Hin as (spec & [= -> ->] & Hin).
    rewrite Forall_forall in Husable. pose proof (Husable spec Hin) as Hspec.
    cbn [LanguageServerSession.spec LanguageServerSession.new snd].
    pose proof Hspec as [_ Hl]%andb_true_iff.
    unfold LanguageServerSpec.truthy in Hl.
    destruct (LanguageServerSpec.languages spec) as [[|l ls]|] eqn:Hlangs; try done.
    exists (l :: ls). split; [done|]. split; [done|]. split; [done|].
    split; [done|]. cbn [default from_option id]. split.
    + intros Hnil. pose proof (sorted_Permutation (l :: ls)) as Hperm.
      rewrite Hnil in Hperm. by apply Permutation_nil_cons in Hperm.
    + intros language. by rewrite (sorted_Permutation (l :: ls)).
Qed.
End initialize_more.
(** ** Subscriptions and delivery, continued *)

Lemma filter_nil_iff {A} (f : A → bool) (l : list A) :
  List.filter f l = [] ↔ ∀ x, x ∈ l → f x = false.
Proof.
  induction l as [|x l IH]; cbn.
  - split; [|done]. intros _ y Hy. by apply elem_of_nil in Hy.
  - destruct (f x) eqn:Hx.
    + split; [done|]. intros Hall.
      specialize (Hall x (list_elem_of_here _ _)). congruence.
    + rewrite IH. split.
      * intros Hall y [->|Hy]%elem_of_cons; auto.
      * intros Hall y Hy. by apply Hall, list_elem_of_further.
Qed.

Section subscription_more.
Variable json_loads : string → result json.
Variable assign_handlers : handlers_value → handlers_value.

(** X13. When no session key contains the handler's language, [subscribe]
    returns and leaves the manager as it was, and nothing tells the caller;
    a message from a handler that no session holds is offered to the
    listeners and then dropped: [on_client_message] does what
    [wait_for_listeners] does and no more. *)
Theorem subscribe_without_session handler self :
  (∀ key, key ∈ dict_keys (sessions self) → Handler.language handler ∉ key) →
  subscribe assign_handlers handler self = (Ok tt, self)
  ∧ (sessions_for_handler self handler = [] →
     ∀ message,
       on_client_message json_loads message handler self
       = wait_for_listeners json_loads client message
           [Handler.language handler] self).
Proof.
  intros Hnone. split.
  - rewrite subscribe_run.
    destruct (List.filter _ _) as [|[key session] targets] eqn:Hfilter; [done|].
    assert (key ∈ (List.filter
                     (λ kv : list string * LanguageServerSession.t,
                        bool_decide (Handler.language handler ∈ kv.1))
                     (dict_items (sessions self))).*1) as Hin.
    { rewrite Hfilter. apply list_elem_of_here. }
    apply subscribe_targets in Hin as [Hkey Hlang]. by destruct (Hnone key).
  - intros Hnowhere message. rewrite on_client_message_run.
    destruct (wait_for_listeners_heard json_loads client message
                [Handler.language handler] self) as (heard & Hstate & _).
    destruct (wait_for_listeners _ _ _ _ _) as [[[]|e] self']; [|done].
    cbn [fst snd] in *. subst self'.
    change (sessions_for_handler (set_calls (calls self ++ heard) self) handler)
      with (sessions_for_handler self handler).
    rewrite Hnowhere. cbn [written fmap list_fmap].
    by rewrite app_nil_r, set_calls_id.
Qed.

(** X14. [unsubscribe] of a handler that no session holds returns and
    leaves the manager as it was. *)
Theorem unsubscribe_not_subscribed handler self :
  (∀ key session,
     (key, session) ∈ sessions self →
     handler_in handler (LanguageServerSession.handlers session) = false) →
  unsubscribe assign_handlers handler self = (Ok tt, self).
Proof.
  intros Hnone. rewrite unsubscribe_run.
  assert (sessions_for_handler self handler = []) as ->; [|done].
  apply filter_nil_iff. intros [key session] Hin. by apply (Hnone key).
Qed.

(** X15. Where an assigned list keeps its members, [unsubscribe] takes the
    handler out of every session and keeps every other handler where it
    was, with the sessions' specs and keys: afterwards no session holds the
    handler. *)
Theorem unsubscribe_removes_handler handler self :
  (∀ l h, h ∈ iter_handlers (assign_handlers (PyList l)) ↔ h ∈ l) →
  NoDup (dict_keys (sessions self)) →
  ∃ table,
    unsubscribe assign_handlers handler self = (Ok tt, set_sessions table self)
    ∧ dict_keys table = dict_keys (sessions self)
    ∧ (∀ key session,
         dict_get key (sessions self) = Some session →
         ∃ session',
           dict_get key table = Some session'
           ∧ LanguageServerSession.spec session' = LanguageServerSession.spec session
           ∧ ∀ h, h ∈ iter_handlers (LanguageServerSession.handlers session')
                  ↔ h ∈ iter_handlers (LanguageServerSession.handlers session)
                    ∧ h ≠ handler)
    ∧ sessions_for_handler (set_sessions table self) handler = [].
Proof.
  intros Hmembers Hnodup. rewrite unsubscribe_run.
  destruct (for_each_setattr
    (λ session : list string * LanguageServerSession.t,
       current ← getattr_handlers session.1;
       setattr_handlers assign_handlers session.1
         (PyList (List.filter (λ h, bool_decide (h ≠ handler))
                              (iter_handlers current))))
    (λ session,
       assign_handlers
         (PyList (List.filter (λ h, bool_decide (h ≠ handler))
                    (iter_handlers (LanguageServerSession.handlers session)))))
    (λ _, True)) with (targets := sessions_for_handler self handler) (self := self)
    as (table & Hrun & Hkeys & Hget).
  - intros kv self' session' Hget' _.
    unfold getattr_handlers, setattr_handlers, mbind, M_mbind, M_bind, get,
      lift, modify, mret, M_mret, M_ret.
    cbv beta iota. by rewrite Hget'.
  - unfold sessions_for_handler, dict_items. by apply dict_keys_filter_NoDup.
  - intros k Hk. apply filter_keys, dict_get_is_Some in Hk as [session' ?].
    by exists session'.
  - assert (∀ key session,
      dict_get key (sessions self) = Some session →
      ∃ session',
        dict_get key table = Some session'
        ∧ LanguageServerSession.spec session' = LanguageServerSession.spec session
        ∧ ∀ h, h ∈ iter_handlers (LanguageServerSession.handlers session')
               ↔ h ∈ iter_handlers (LanguageServerSession.handlers session)
                 ∧ h ≠ handler) as Hpoint.
    { intros key session Hsession. rewrite Hget, Hsession.
      destruct (decide (key ∈ _)) as [Hin|Hnin].
      - eexists. split; [reflexivity|]. split; [done|]. intros h.
        cbn [LanguageServerSession.handlers LanguageServerSession.with_handlers].
        rewrite Hmembers, list_elem_of_In, filter_In, <-list_elem_of_In.
        by rewrite bool_decide_eq_true.
      - exists session. split; [done|]. split; [done|]. intros h.
        split; [|intros [Hh' _]; exact Hh']. intros Hh. split; [done|]. intros ->.
        apply Hnin, list_elem_of_fmap. exists (key, session). split; [done|].
        apply list_elem_of_In, filter_In. split.
        + by apply list_elem_of_In, dict_get_Some_elem.
        + by apply bool_decide_eq_true. }
    exists table. split; [exact Hrun|]. split; [exact Hkeys|]. split; [exact Hpoint|].
    apply filter_nil_iff. intros [key session'] Hin. cbn [snd].
    apply bool_decide_eq_false. intros Hheld.
    assert (is_Some (dict_get key (sessions self))) as [session Hsession].
    { apply dict_get_is_Some. rewrite <-Hkeys.
      apply list_elem_of_fmap. by exists (key, session'). }
    destruct (Hpoint key session Hsession) as (session'' & Hget'' & _ & Hmem).
    rewrite (dict_get_NoDup_elem key session' table) in Hget''.
    + injection Hget'' as Heq. subst session''.
      by destruct (proj1 (Hmem handler) Hheld) as [_ Hne].
    + by rewrite Hkeys.
    + exact Hin.
Qed.

(** X16. Where the targeted sessions hold sets, a handler that has
    subscribed reaches every session whose key contains its language:
    whenever [on_client_message] returns, the message has been written to
    each of them. *)
Theorem subscribed_handler_reaches_sessions handler self message key :
  (∀ s, assign_handlers (PySet s) = PySet s) →
  NoDup (dict_keys (sessions self)) →
  (∀ key session,
     dict_get key (sessions self) = Some session →
     Handler.language handler ∈ key →
     ∃ s, LanguageServerSession.handlers session = PySet s) →
  key ∈ dict_keys (sessions self) →
  Handler.language handler ∈ key →
  (on_client_message json_loads message handler
     (subscribe assign_handlers handler self).2).1 = Ok tt →
  Written key message
  ∈ calls (on_client_message json_loads message handler
             (subscribe assign_handlers handler self).2).2.
Proof.
  intros Hassign Hnodup Hsets Hkey Hlang.
  destruct (subscribe_spec assign_handlers handler self Hnodup Hsets)
    as (table & Hrun & Hkeys & Hget).
  rewrite Hrun. cbn [snd]. rewrite on_client_message_run.
  destruct (wait_for_listeners_heard json_loads client message
              [Handler.language handler] (set_sessions table self))
    as (heard & Hstate & _).
  destruct (wait_for_listeners _ _ _ _ _) as [[[]|e] self']; [|done].
  cbn [fst snd] in *. subst self'. intros _. cbn [calls set_calls].
  apply elem_of_app. right. unfold written.
  apply dict_get_is_Some in Hkey as [session Hsession].
  destruct (Hsets key session Hsession Hlang) as [s Hs].
  specialize (Hget key). rewrite decide_True, Hsession in Hget by done.
  cbn in Hget. rewrite Hs, Hassign in Hget.
  apply list_elem_of_fmap. eexists (key, _). split; [done|].
  apply list_elem_of_In, filter_In. split.
  - apply list_elem_of_In. cbn [sessions set_sessions set_calls dict_items].
    apply dict_get_Some_elem, Hget.
  - cbn [snd LanguageServerSession.handlers LanguageServerSession.with_handlers].
    apply bool_decide_eq_true. cbn [iter_handlers].
    by apply elem_of_elements, elem_of_union_l, elem_of_singleton.
Qed.

(** X17. When [on_server_message] returns for a session that holds a set
    of handlers, it has called listeners and then written the message to
    the handlers of the set, once to each and to no other. *)
Theorem server_message_once_per_handler self message session s :
  LanguageServerSession.handlers session = PySet s →
  (on_server_message json_loads message session self).1 = Ok tt →
  ∃ heard,
    calls (on_server_message json_loads message session self).2
    = calls self ++ heard ++ sent message (elements s)
    ∧ forallb is_Listened heard = true
    ∧ NoDup (sent message (elements s))
    ∧ ∀ ev, ev ∈ sent message (elements s)
            ↔ ∃ handler, ev = Sent handler message ∧ handler ∈ s.
Proof.
  intros Hs.
  destruct (LanguageServerSpec.languages (LanguageServerSession.spec session))
    as [languages|] eqn:Hl.
  2: { unfold on_server_message, mbind, M_mbind, M_bind, lift,
         LanguageServerSpec.getitem_languages. by rewrite Hl. }
  rewrite (on_server_message_run _ _ _ _ _ Hl).
  destruct (wait_for_listeners_heard json_loads server message languages self)
    as (heard & Hstate & Hheard).
  destruct (wait_for_listeners _ _ _ _ _) as [[[]|e] self']; [|done].
  cbn [fst snd] in *. subst self'. intros _. exists heard.
  rewrite Hs. cbn [calls set_calls iter_handlers]. rewrite <-app_assoc.
  split; [done|]. split; [done|]. split.
  - unfold sent. apply NoDup_fmap_2; [|apply NoDup_elements].
    by intros h1 h2 [= ->].
  - intros ev. unfold sent. rewrite list_elem_of_fmap.
    by setoid_rewrite elem_of_elements.
Qed.
End subscription_more.

(** A handler for python and a manager whose only session serves json and
    yaml. *)
Lemma subscribe_without_session_witness :
  subscribe plain_attribute python_handler json_manager = (Ok tt, json_manager).
Proof.
  apply (subscribe_without_session json_lite.loads plain_attribute
           python_handler json_manager).
  intros key Hkey. cbn in Hkey. apply list_elem_of_singleton in Hkey as ->.
  intros [?|[?|?%elem_of_nil]%elem_of_cons]%elem_of_cons; done.
Defined.

Lemma unsubscribe_not_subscribed_witness :
  unsubscribe plain_attribute json_handler json_manager = (Ok tt, json_manager).
Proof.
  apply (unsubscribe_not_subscribed plain_attribute json_handler json_manager).
  intros key session Hin. cbn in Hin. apply list_elem_of_singleton in Hin as [= -> ->].
  apply bool_decide_eq_false. cbn. rewrite elements_empty. apply not_elem_of_nil.
Defined.

Lemma unsubscribe_removes_handler_witness :
  sessions_for_handler
    (unsubscribe plain_attribute python_handler
       (python_manager HasListeners.empty)).2 python_handler
  = [].
Proof.
  destruct (unsubscribe_removes_handler plain_attribute python_handler
              (python_manager HasListeners.empty))
    as (table & Hrun & _ & _ & Hnone).
  - done.
  - apply NoDup_singleton.
  - by rewrite Hrun.
Defined.

Lemma subscribed_handler_reaches_sessions_witness :
  Written ["json"; "yaml"] "{}"
  ∈ calls (on_client_message json_lite.loads "{}" json_handler
             (subscribe plain_attribute json_handler json_manager).2).2.
Proof.
  apply (subscribed_handler_reaches_sessions json_lite.loads plain_attribute
           json_handler json_manager "{}" ["json"; "yaml"]).
  - done.
  - apply NoDup_singleton.
  - intros key session Hget _. cbn in Hget.
    destruct (decide (key = ["json"; "yaml"])); [|done].
    injection Hget as <-. by eexists.
  - apply list_elem_of_here.
  - apply list_elem_of_here.
  - rewrite on_client_message_run, wait_for_listeners_run.
    destruct (subscribe_spec plain_attribute json_handler json_manager)
      as (table & -> & _).
    + apply NoDup_singleton.
    + intros key session Hget _. cbn in Hget.
      destruct (decide (key = ["json"; "yaml"])); [|done].
      injection Hget as <-. by eexists.
    + reflexivity.
Defined.

Lemma server_message_once_per_handler_witness :
  ∃ heard,
    calls (on_server_message json_lite.loads "{}"
             (LanguageServerSession.mk python_spec (PySet {[ python_handler ]}))
             (python_manager one_listener)).2
    = heard ++ sent "{}" (elements ({[ python_handler ]} : gset Handler.t)).
Proof.
  destruct (server_message_once_per_handler json_lite.loads
              (python_manager one_listener) "{}"
              (LanguageServerSession.mk python_spec (PySet {[ python_handler ]}))
              {[ python_handler ]} eq_refl) as (heard & Hcalls & _).
  - by rewrite (on_server_message_run _ _ _ ["python"]),
      wait_for_listeners_run.
  - exists heard. exact Hcalls.
Defined.
